(** * Resilio statistics engine ([lib/stats.py]): shallow embedding and properties

    The Python module computes descriptive statistics, a normality
    classification, Welch's t-test, the Mann-Whitney U test, two effect sizes
    and two coarse p-value tables, and routes a pair of samples to one of the
    two tests.

    Number model.  The specification's data model takes a sample to be a
    sequence of real numbers; samples, ranks and statistics are embedded as
    canonical rationals ([Qc]), whose equality is Leibniz equality, so that
    every definition evaluates.  Rounding of binary floating point is not
    modelled.  [math.sqrt] and the square root inside [statistics.stdev]
    belong to the Python library, not to the repository: the development is
    parametric in a function [sqrt : Qc -> Qc], and the facts about it that a
    result needs (it is 0 at 0, it is not 0 above 0) are hypotheses of that
    result.  [heron_sqrt] is an executable instance for concrete runs.

    Effects.  Python exceptions and the two [while] loops are embedded in a
    small outcome monad: [Return v], [Raise e], or [Diverge] when a loop
    exhausts its fuel. *)

From Stdlib Require Import ZArith QArith Qcanon Qround List String Bool Lia Lqa.
From Stdlib Require Import Sorting.Sorted Sorting.Permutation.
Import ListNotations.

Local Open Scope Qc_scope.

(* ------------------------------------------------------------------------- *)
(** ** Numbers *)

Module Num.

(** A decimal literal of the source, [n/d]. *)
Definition lit (n : Z) (d : positive) : Qc := Q2Qc (n # d).

Definition of_Z (z : Z) : Qc := Q2Qc (inject_Z z).

(** [len(...)] used in arithmetic. *)
Definition of_nat (n : nat) : Qc := of_Z (Z.of_nat n).

Definition eqb (x y : Qc) : bool :=
  match x ?= y with Eq => true | _ => false end.

Definition ltb (x y : Qc) : bool :=
  match x ?= y with Lt => true | _ => false end.

Definition leb (x y : Qc) : bool :=
  match x ?= y with Gt => false | _ => true end.

(** Python's [abs]. *)
Definition abs (x : Qc) : Qc := if ltb x 0 then - x else x.

(** Python's two-argument [min(a, b)]: [b] only when [b < a]. *)
Definition min2 (a b : Qc) : Qc := if ltb b a then b else a.

(** Python's two-argument [max(a, b)]: [b] only when [b > a]. *)
Definition max2 (a b : Qc) : Qc := if ltb a b then b else a.

(** Python's [int(x)] on a float: truncation toward zero. *)
Definition int (x : Qc) : Z :=
  if ltb x 0 then Qceiling x else Qfloor x.

(** [sum(...)] over numbers, left to right from 0. *)
Definition sum (l : list Qc) : Qc := fold_left Qcplus l 0.

End Num.

(* ------------------------------------------------------------------------- *)
(** ** Exceptions and the outcome monad *)

Inductive exn : Type :=
| ZeroDivisionError
| IndexError
| ValueError
| StatisticsError.

Inductive outcome (A : Type) : Type :=
| Return (a : A)
| Raise (e : exn)
| Diverge.

Arguments Return {A} a.
Arguments Raise {A} e.
Arguments Diverge {A}.

Definition bind {A B : Type} (m : outcome A) (k : A -> outcome B) : outcome B :=
  match m with
  | Return a => k a
  | Raise e => Raise e
  | Diverge => Diverge
  end.

Declare Scope py_scope.
Delimit Scope py_scope with py.
Notation "x <- m ;; k" := (bind m (fun x => k))
  (at level 61, m at next level, right associativity) : py_scope.
Notation "' pat <- m ;; k" := (bind m (fun x => match x with pat => k end))
  (at level 61, pat pattern, m at next level, right associativity) : py_scope.
Local Open Scope py_scope.

(** Python's true division [a / b]. *)
Definition py_div (a b : Qc) : outcome Qc :=
  if Num.eqb b 0 then Raise ZeroDivisionError else Return (a / b).

(** Python's [l[i]] for an integer index, negative indices counted from the end. *)
Definition py_index {A : Type} (l : list A) (i : Z) : outcome A :=
  let n := Z.of_nat (List.length l) in
  let k := if (i <? 0)%Z then (n + i)%Z else i in
  if ((k <? 0) || (n <=? k))%Z then Raise IndexError
  else match nth_error l (Z.to_nat k) with
       | Some a => Return a
       | None => Raise IndexError
       end.

(** [for k in range(i, j): acc = body k acc]. *)
Fixpoint for_range {S : Type} (i : nat) (count : nat)
  (body : nat -> S -> outcome S) (acc : S) : outcome S :=
  match count with
  | O => Return acc
  | Datatypes.S count' =>
      acc' <- body i acc ;;
      for_range (Datatypes.S i) count' body acc'
  end.

(* ------------------------------------------------------------------------- *)
(** ** Sorting: Python's [sorted] on numbers and on [(value, group)] tuples

    [sorted] is stable and both orders are total, with equivalent elements
    equal; a stable insertion sort returns the same list. *)

Fixpoint insert_by {A : Type} (leb : A -> A -> bool) (x : A) (l : list A) : list A :=
  match l with
  | [] => [x]
  | y :: l' => if leb x y then x :: l else y :: insert_by leb x l'
  end.

Definition sort_by {A : Type} (leb : A -> A -> bool) (l : list A) : list A :=
  fold_right (insert_by leb) [] l.

(** Tuple comparison [(a, s) <= (b, t)]: by value, then by group tag. *)
Definition tuple_leb (x y : Qc * Z) : bool :=
  match fst x ?= fst y with
  | Lt => true
  | Eq => (snd x <=? snd y)%Z
  | Gt => false
  end.

Definition sorted (values : list Qc) : list Qc := sort_by Num.leb values.

Definition sorted_tagged (l : list (Qc * Z)) : list (Qc * Z) := sort_by tuple_leb l.

(* ------------------------------------------------------------------------- *)
(** ** Python built-ins and the [statistics] module *)

(** [min(values)] and [max(values)] on a list: [ValueError] when it is empty. *)
Definition py_min (values : list Qc) : outcome Qc :=
  match values with
  | [] => Raise ValueError
  | x :: rest => Return (fold_left Num.min2 rest x)
  end.

Definition py_max (values : list Qc) : outcome Qc :=
  match values with
  | [] => Raise ValueError
  | x :: rest => Return (fold_left Num.max2 rest x)
  end.

(** [statistics.mean]: the arithmetic mean, [StatisticsError] on no data. *)
Definition statistics_mean (values : list Qc) : outcome Qc :=
  match values with
  | [] => Raise StatisticsError
  | _ => Return (Num.sum values / Num.of_nat (List.length values))
  end.

(** [statistics.median]: the middle value of the sorted data, the mean of the
    two middle values when their number is even. *)
Definition statistics_median (values : list Qc) : outcome Qc :=
  let data := sorted values in
  let n := List.length data in
  if (n =? 0)%nat then Raise StatisticsError
  else if Nat.odd n then py_index data (Z.of_nat (n / 2))
  else
    let i := (n / 2)%nat in
    a <- py_index data (Z.of_nat i - 1) ;;
    b <- py_index data (Z.of_nat i) ;;
    Return ((a + b) / Num.lit 2 1).

(** [statistics.variance]: the sample variance (denominator [n - 1]),
    [StatisticsError] on fewer than two data points. *)
Definition statistics_variance (values : list Qc) : outcome Qc :=
  let n := List.length values in
  if (n <? 2)%nat then Raise StatisticsError
  else
    let mean := Num.sum values / Num.of_nat n in
    Return (Num.sum (map (fun x => (x - mean) * (x - mean)) values)
            / (Num.of_nat n - 1)).

(** The shape of what [welchs_t_test] returns: its success path builds a
    3-tuple, its two guard paths build 4-tuples. *)
Inductive welch_tuple : Type :=
| Tuple3 (t_stat df : Qc) (status : string)
| Tuple4 (a b c : Qc) (status : string).

(** [t, df, status = ...]: unpacking into three names. *)
Definition unpack3 (r : welch_tuple) : outcome (Qc * Qc * string) :=
  match r with
  | Tuple3 t df status => Return (t, df, status)
  | Tuple4 _ _ _ _ => Raise ValueError
  end.

Definition tuple_len (r : welch_tuple) : nat :=
  match r with
  | Tuple3 _ _ _ => 3
  | Tuple4 _ _ _ _ => 4
  end.

(** The line that the [hypothesis_test] command prints, before formatting:
    [testname|stat1|stat2|p_value|status|effect_size|s1_status|s2_status]. *)
Inductive TestOutcome : Type :=
| WelchOutcome (t_stat df p_value : Qc) (status : string) (effect_size : Qc)
    (s1_status s2_status : string)
| MannWhitneyOutcome (u_stat z_score p_value : Qc) (status : string)
    (effect_size : Qc) (s1_status s2_status : string).

(** What the process does for one command: a result line and exit status 0, or
    the [ERROR|...] line and exit status 1. *)
Inductive process_result : Type :=
| Printed (line : TestOutcome)
| ErrorLine (e : exn)
| Hangs.

(* ------------------------------------------------------------------------- *)
(** ** The p-value tables and effect sizes (no square root involved) *)

Definition calculate_rank_biserial (u_stat : Qc) (n1 n2 : nat) : outcome Qc :=
  q <- py_div (Num.lit 2 1 * u_stat) (Num.of_nat n1 * Num.of_nat n2) ;;
  Return (1 - q).

Definition interpret_effect_size (effect : Qc) : string :=
  let abs_e := Num.abs effect in
  if Num.ltb abs_e (Num.lit 2 10) then "negligible"
  else if Num.ltb abs_e (Num.lit 5 10) then "small"
  else if Num.ltb abs_e (Num.lit 8 10) then "medium"
  else "large".

Definition t_to_pvalue (t df : Qc) : Qc :=
  let abs_t := Num.abs t in
  if Num.ltb (Num.lit 30 1) df then
    if Num.ltb (Num.lit 35 10) abs_t then Num.lit 1 1000
    else if Num.ltb (Num.lit 2576 1000) abs_t then Num.lit 1 100
    else if Num.ltb (Num.lit 196 100) abs_t then Num.lit 5 100
    else if Num.ltb (Num.lit 1645 1000) abs_t then Num.lit 10 100
    else Num.lit 20 100
  else
    if Num.ltb (Num.lit 3 1) abs_t then Num.lit 1 100
    else if Num.ltb (Num.lit 2 1) abs_t then Num.lit 5 100
    else Num.lit 20 100.

Definition z_to_pvalue (z : Qc) : Qc :=
  let abs_z := Num.abs z in
  if Num.ltb (Num.lit 3291 1000) abs_z then Num.lit 1 1000
  else if Num.ltb (Num.lit 2576 1000) abs_z then Num.lit 1 100
  else if Num.ltb (Num.lit 196 100) abs_z then Num.lit 5 100
  else if Num.ltb (Num.lit 1645 1000) abs_z then Num.lit 10 100
  else if Num.ltb (Num.lit 128 100) abs_z then Num.lit 20 100
  else Num.lit 50 100.

(* ------------------------------------------------------------------------- *)
(** ** The Mann-Whitney rank loops *)

(** The inner [while j < len(combined) and combined[j][0] == combined[i][0]]:
    the end of the tie group that starts at [i]. *)
Fixpoint tie_scan (fuel : nat) (combined : list (Qc * Z)) (i j : nat) : outcome nat :=
  match fuel with
  | O => Diverge
  | S fuel' =>
      if (j <? List.length combined)%nat then
        cj <- py_index combined (Z.of_nat j) ;;
        ci <- py_index combined (Z.of_nat i) ;;
        if Num.eqb (fst cj) (fst ci) then tie_scan fuel' combined i (S j)
        else Return j
      else Return j
  end.

(** [avg_rank = (i + 1 + j) / 2.0]. *)
Definition avg_rank (i j : nat) : Qc :=
  (Num.of_nat i + 1 + Num.of_nat j) / Num.lit 2 1.

(** First pass (source lines 89-106): the midrank of each tie group is
    computed, the [for] body is [pass], nothing is stored. *)
Fixpoint rank_scan_loop (fuel : nat) (combined : list (Qc * Z)) (i : nat) : outcome unit :=
  match fuel with
  | O => Diverge
  | S fuel' =>
      if (i <? List.length combined)%nat then
        j <- tie_scan (S (List.length combined)) combined i i ;;
        let avg := avg_rank i j in
        _ <- for_range i (j - i) (fun _ u => Return u) tt ;;
        rank_scan_loop fuel' combined j
      else Return tt
  end.

(** Second pass (source lines 110-120): [r1_sum] accumulates the midrank of
    every element tagged group 1. *)
Fixpoint rank_sum_loop (fuel : nat) (combined : list (Qc * Z)) (i : nat) (r1_sum : Qc)
  : outcome Qc :=
  match fuel with
  | O => Diverge
  | S fuel' =>
      if (i <? List.length combined)%nat then
        j <- tie_scan (S (List.length combined)) combined i i ;;
        let avg := avg_rank i j in
        r1_sum' <- for_range i (j - i)
                     (fun k acc =>
                        ck <- py_index combined (Z.of_nat k) ;;
                        Return (if (snd ck =? 1)%Z then acc + avg else acc))
                     r1_sum ;;
        rank_sum_loop fuel' combined j r1_sum'
      else Return r1_sum
  end.

(** [sorted([(v, 1) for v in v1] + [(v, 2) for v in v2])]. *)
Definition combine_tagged (v1 v2 : list Qc) : list (Qc * Z) :=
  sorted_tagged (map (fun v => (v, 1%Z)) v1 ++ map (fun v => (v, 2%Z)) v2).

(** [u1 = r1_sum - (n1 * (n1 + 1)) / 2]. *)
Definition mw_u1 (r1_sum : Qc) (n1 : nat) : Qc :=
  r1_sum - (Num.of_nat n1 * (Num.of_nat n1 + 1)) / Num.lit 2 1.

(** [u2 = (n1 * n2) - u1]. *)
Definition mw_u2 (u1 : Qc) (n1 n2 : nat) : Qc :=
  Num.of_nat n1 * Num.of_nat n2 - u1.

(** [[f(x) for x in l]] where [f] may raise. *)
Fixpoint map_outcome {A B : Type} (f : A -> outcome B) (l : list A) : outcome (list B) :=
  match l with
  | [] => Return []
  | x :: rest =>
      y <- f x ;;
      ys <- map_outcome f rest ;;
      Return (y :: ys)
  end.

(* ------------------------------------------------------------------------- *)
(** ** The functions of [lib/stats.py] *)

Section Stats.

(** The square root of the Python library. *)
Variable sqrt : Qc -> Qc.

(** [math.sqrt]: [ValueError] (math domain error) below zero. *)
Definition math_sqrt (x : Qc) : outcome Qc :=
  if Num.ltb x 0 then Raise ValueError else Return (sqrt x).

(** [statistics.stdev]: the square root of the sample variance. *)
Definition statistics_stdev (values : list Qc) : outcome Qc :=
  v <- statistics_variance values ;;
  Return (sqrt v).

(** [sorted_vals[int(q * (n - 1))]]. *)
Definition percentile (sorted_vals : list Qc) (q : Qc) (n : nat) : outcome Qc :=
  py_index sorted_vals (Num.int (q * Num.of_Z (Z.of_nat n - 1))).

Definition calculate_stats (values : list Qc) : outcome (list Qc) :=
  match values with
  | [] => Return (repeat 0 10)
  | _ =>
      let n := List.length values in
      mean <- statistics_mean values ;;
      median <- statistics_median values ;;
      '(stdev, variance) <-
         (if (1 <? n)%nat then
            s <- statistics_stdev values ;;
            v <- statistics_variance values ;;
            Return (s, v)
          else Return (0, 0)) ;;
      min_val <- py_min values ;;
      max_val <- py_max values ;;
      let sorted_vals := sorted values in
      p90 <- percentile sorted_vals (Num.lit 90 100) n ;;
      p95 <- percentile sorted_vals (Num.lit 95 100) n ;;
      p99 <- percentile sorted_vals (Num.lit 99 100) n ;;
      confidence_margin <-
         (if (0 <? n)%nat then
            root <- math_sqrt (Num.of_nat n) ;;
            q <- py_div stdev root ;;
            Return (Num.lit 196 100 * q)
          else Return 0) ;;
      let ci_lower := mean - confidence_margin in
      let ci_upper := mean + confidence_margin in
      Return [mean; median; stdev; min_val; max_val; p90; p95; p99; ci_lower; ci_upper]
  end.

Definition check_normality (values : list Qc) : outcome (string * Qc * Qc) :=
  let n := List.length values in
  if (n <? 20)%nat then Return ("insufficient_data"%string, 0, 0)
  else
    mean <- statistics_mean values ;;
    stdev <- statistics_stdev values ;;
    if Num.eqb stdev 0 then Return ("zero_variance"%string, 0, 0)
    else
      z_scores <- map_outcome (fun x => py_div (x - mean) stdev) values ;;
      s3 <- py_div (Num.sum (map (fun z => z ^ 3) z_scores)) (Num.of_nat n) ;;
      let skewness := s3 in
      s4 <- py_div (Num.sum (map (fun z => z ^ 4) z_scores)) (Num.of_nat n) ;;
      let kurtosis := s4 - Num.lit 3 1 in
      let is_normal := Num.leb (Num.abs skewness) (Num.lit 1 1)
                       && Num.leb (Num.abs kurtosis) (Num.lit 2 1) in
      let status := if is_normal then "approximately_normal"%string
                    else "non_normal"%string in
      Return (status, skewness, kurtosis).

Definition welchs_t_test (v1 v2 : list Qc) : outcome welch_tuple :=
  let n1 := List.length v1 in
  let n2 := List.length v2 in
  if ((n1 <? 2) || (n2 <? 2))%nat then Return (Tuple4 0 0 0 "insufficient_data")
  else
    m1 <- statistics_mean v1 ;;
    m2 <- statistics_mean v2 ;;
    s1_sq <- statistics_variance v1 ;;
    s2_sq <- statistics_variance v2 ;;
    a <- py_div s1_sq (Num.of_nat n1) ;;
    b <- py_div s2_sq (Num.of_nat n2) ;;
    se <- math_sqrt (a + b) ;;
    if Num.eqb se 0 then Return (Tuple4 0 0 (Num.lit 999 1) "zero_variance")
    else
      t_stat <- py_div (m1 - m2) se ;;
      a <- py_div s1_sq (Num.of_nat n1) ;;
      b <- py_div s2_sq (Num.of_nat n2) ;;
      let num := (a + b) ^ 2 in
      a <- py_div s1_sq (Num.of_nat n1) ;;
      l <- py_div (a ^ 2) (Num.of_nat n1 - 1) ;;
      b <- py_div s2_sq (Num.of_nat n2) ;;
      r <- py_div (b ^ 2) (Num.of_nat n2 - 1) ;;
      let den := l + r in
      df <- (if Num.ltb 0 den then py_div num den else Return (Num.lit 30 1)) ;;
      Return (Tuple3 t_stat df "success").

Definition mann_whitney_u_test (v1 v2 : list Qc) : outcome (Qc * Qc * string) :=
  let n1 := List.length v1 in
  let n2 := List.length v2 in
  if ((n1 <? 3) || (n2 <? 3))%nat then Return (0, 0, "insufficient_data"%string)
  else
    let combined := combine_tagged v1 v2 in
    let ranks := repeat 0 (n1 + n2) in
    _ <- rank_scan_loop (S (List.length combined)) combined 0 ;;
    let combined := combine_tagged v1 v2 in
    r1_sum <- rank_sum_loop (S (List.length combined)) combined 0 0 ;;
    let u1 := mw_u1 r1_sum n1 in
    let u2 := mw_u2 u1 n1 n2 in
    let u_stat := Num.min2 u1 u2 in
    let mu_u := (Num.of_nat n1 * Num.of_nat n2) / Num.lit 2 1 in
    sigma_u <- math_sqrt ((Num.of_nat n1 * Num.of_nat n2
                           * (Num.of_nat n1 + Num.of_nat n2 + 1)) / Num.lit 12 1) ;;
    if Num.eqb sigma_u 0 then Return (u_stat, 0, "zero_variance"%string)
    else
      z_score <- py_div (u_stat - mu_u) sigma_u ;;
      Return (u_stat, z_score, "success"%string).

Definition calculate_cohens_d (m1 m2 s1_sq s2_sq : Qc) (n1 n2 : nat) : outcome Qc :=
  pooled_var <- py_div (((Num.of_nat n1 - 1) * s1_sq) + ((Num.of_nat n2 - 1) * s2_sq))
                  (Num.of_nat n1 + Num.of_nat n2 - Num.lit 2 1) ;;
  pooled_sd <- math_sqrt pooled_var ;;
  if Num.ltb 0 pooled_sd then py_div (m1 - m2) pooled_sd else Return 0.

(** The [hypothesis_test] branch of [main], from the two parsed samples to
    the fields of the printed line. *)
Definition hypothesis_test (v1 v2 : list Qc) : outcome TestOutcome :=
  let n1 := List.length v1 in
  let n2 := List.length v2 in
  '(s1_status, s1_skew, s1_kurt) <- check_normality v1 ;;
  '(s2_status, s2_skew, s2_kurt) <- check_normality v2 ;;
  if String.eqb s1_status "approximately_normal"
     && String.eqb s2_status "approximately_normal" then
    r <- welchs_t_test v1 v2 ;;
    '(t, df, status) <- unpack3 r ;;
    let p := t_to_pvalue t df in
    m1 <- statistics_mean v1 ;;
    m2 <- statistics_mean v2 ;;
    v1_var <- statistics_variance v1 ;;
    v2_var <- statistics_variance v2 ;;
    effect <- calculate_cohens_d m1 m2 v1_var v2_var n1 n2 ;;
    Return (WelchOutcome t df p status effect s1_status s2_status)
  else
    '(u, z, status) <- mann_whitney_u_test v1 v2 ;;
    let p := z_to_pvalue z in
    effect <- calculate_rank_biserial u n1 n2 ;;
    Return (MannWhitneyOutcome u z p status effect s1_status s2_status).

(** The [calculate_statistics] branch of [main], from the parsed sample to
    the eleven fields of the printed line: the ten of [calculate_stats] and
    the sample variance appended. *)
Definition calculate_statistics (data : list Qc) : outcome (list Qc) :=
  results <- calculate_stats data ;;
  v <- (if (1 <? List.length data)%nat then statistics_variance data else Return 0) ;;
  Return (results ++ [v]).

(** [main] for the [hypothesis_test] command: [except Exception] turns any
    exception into the error line and exit status 1. *)
Definition main_hypothesis_test (v1 v2 : list Qc) : process_result :=
  match hypothesis_test v1 v2 with
  | Return line => Printed line
  | Raise e => ErrorLine e
  | Diverge => Hangs
  end.

(** The Mann-Whitney function as the specification's design note wants it
    kept: the single rank-sum pass, no preliminary scan. *)
Definition mann_whitney_single_pass (v1 v2 : list Qc) : outcome (Qc * Qc * string) :=
  let n1 := List.length v1 in
  let n2 := List.length v2 in
  if ((n1 <? 3) || (n2 <? 3))%nat then Return (0, 0, "insufficient_data"%string)
  else
    let combined := combine_tagged v1 v2 in
    r1_sum <- rank_sum_loop (S (List.length combined)) combined 0 0 ;;
    let u1 := mw_u1 r1_sum n1 in
    let u2 := mw_u2 u1 n1 n2 in
    let u_stat := Num.min2 u1 u2 in
    let mu_u := (Num.of_nat n1 * Num.of_nat n2) / Num.lit 2 1 in
    sigma_u <- math_sqrt ((Num.of_nat n1 * Num.of_nat n2
                           * (Num.of_nat n1 + Num.of_nat n2 + 1)) / Num.lit 12 1) ;;
    if Num.eqb sigma_u 0 then Return (u_stat, 0, "zero_variance"%string)
    else
      z_score <- py_div (u_stat - mu_u) sigma_u ;;
      Return (u_stat, z_score, "success"%string).

End Stats.

(** An executable square root for concrete runs: Heron's iteration from
    [(x + 1) / 2], exact at 0 and positive above it. *)
Fixpoint heron (x : Qc) (steps : nat) (guess : Qc) : Qc :=
  match steps with
  | O => guess
  | S steps' => heron x steps' ((guess + x / guess) / Num.lit 2 1)
  end.

Definition heron_sqrt (x : Qc) : Qc :=
  if Num.leb x 0 then 0 else heron x 4 ((x + 1) / Num.lit 2 1).

(** The position [floor(q * (n - 1))] of the nearest-rank percentile in the
    sorted sample, as the specification words it. *)
Definition percentile_position (q : Qc) (n : nat) : nat :=
  Z.to_nat (Qfloor (q * Num.of_Z (Z.of_nat n - 1))%Qc).

(* ========================================================================= *)
(** * Properties *)

(** ** Comparisons and conversions *)

Lemma eqb_true_iff (x y : Qc) : Num.eqb x y = true <-> x = y.
Proof.
  unfold Num.eqb. rewrite Qceq_alt.
  destruct (x ?= y); split; intro H; auto; discriminate H.
Qed.

Lemma eqb_false_iff (x y : Qc) : Num.eqb x y = false <-> x <> y.
Proof.
  rewrite <- eqb_true_iff. destruct (Num.eqb x y); split; intro H;
    try reflexivity; try discriminate H; try (intro K; discriminate K).
  exfalso. apply H. reflexivity.
Qed.

Lemma eqb_refl (x : Qc) : Num.eqb x x = true.
Proof. apply eqb_true_iff. reflexivity. Qed.

Lemma ltb_true_iff (x y : Qc) : Num.ltb x y = true <-> x < y.
Proof.
  unfold Num.ltb. rewrite Qclt_alt.
  destruct (x ?= y); split; intro H; auto; discriminate H.
Qed.

Lemma ltb_false_iff (x y : Qc) : Num.ltb x y = false <-> y <= x.
Proof.
  split.
  - intro H. apply Qcnot_lt_le. intro K. apply ltb_true_iff in K. congruence.
  - intro H. destruct (Num.ltb x y) eqn:E; auto.
    apply ltb_true_iff in E. exfalso. exact (Qcle_not_lt _ _ H E).
Qed.

Lemma leb_true_iff (x y : Qc) : Num.leb x y = true <-> x <= y.
Proof.
  unfold Num.leb. rewrite Qcle_alt.
  destruct (x ?= y); split; intro H;
    try reflexivity; try discriminate H; try (intro K; discriminate K).
  exfalso. apply H. reflexivity.
Qed.

Lemma leb_false_iff (x y : Qc) : Num.leb x y = false <-> y < x.
Proof.
  split.
  - intro H. apply Qcnot_le_lt. intro K. apply leb_true_iff in K. congruence.
  - intro H. destruct (Num.leb x y) eqn:E; auto.
    apply leb_true_iff in E. exfalso. exact (Qclt_not_le _ _ H E).
Qed.

Lemma this_of_Z (z : Z) : this (Num.of_Z z) = inject_Z z.
Proof.
  unfold Num.of_Z, Q2Qc, this. apply Qred_identity.
  unfold inject_Z, Qnum, Qden. apply Z.gcd_1_r.
Qed.

Lemma of_nat_eq0 (n : nat) : Num.of_nat n = 0 -> n = O.
Proof.
  intro H. apply (f_equal this) in H. unfold Num.of_nat in H.
  rewrite this_of_Z in H. simpl in H. injection H as H. lia.
Qed.

Lemma of_nat_nonneg (n : nat) : 0 <= Num.of_nat n.
Proof.
  unfold Qcle, Num.of_nat. rewrite this_of_Z. simpl.
  unfold Qle. simpl. lia.
Qed.

Lemma of_nat_pos (n : nat) : (0 < n)%nat -> 0 < Num.of_nat n.
Proof.
  intro H. unfold Qclt, Num.of_nat. rewrite this_of_Z. simpl.
  unfold Qlt. simpl. lia.
Qed.

Lemma py_div_nonzero (a b : Qc) : b <> 0 -> py_div a b = Return (a / b).
Proof.
  intro H. unfold py_div. apply eqb_false_iff in H. rewrite H. reflexivity.
Qed.

Lemma py_div_zero (a : Qc) : py_div a 0 = Raise ZeroDivisionError.
Proof. reflexivity. Qed.

Lemma py_index_nat {A : Type} (l : list A) (k : nat) (d : A) :
  (k < List.length l)%nat -> py_index l (Z.of_nat k) = Return (nth k l d).
Proof.
  intro H. unfold py_index. cbv zeta.
  assert (E0 : (Z.of_nat k <? 0)%Z = false) by (apply Z.ltb_ge; lia).
  assert (E1 : (Z.of_nat (List.length l) <=? Z.of_nat k)%Z = false)
    by (apply Z.leb_gt; lia).
  rewrite E0. cbv iota. rewrite E0, E1. simpl orb. cbv iota. rewrite Nat2Z.id.
  destruct (nth_error l k) eqn:E.
  - rewrite (nth_error_nth _ _ d E). reflexivity.
  - apply nth_error_None in E. lia.
Qed.

(** ** The p-value table for z *)

Ltac cmp_to_Q :=
  repeat match goal with
  | H : Num.ltb _ _ = true |- _ => apply ltb_true_iff in H; unfold Qclt in H
  | H : Num.ltb _ _ = false |- _ => apply ltb_false_iff in H; unfold Qcle in H
  | H : (_ < _)%Qc |- _ => unfold Qclt in H
  | H : (_ <= _)%Qc |- _ => unfold Qcle in H
  | H : (_ <= _ <= _)%Qc |- _ => destruct H
  | H : (_ < _ <= _)%Qc |- _ => destruct H
  | H : _ /\ _ |- _ => destruct H
  end;
  unfold Num.lit in *; simpl this in *.

(** C8. [z_to_pvalue] is the threshold table on |z|: above 3.291 it is 0.001,
    else above 2.576 it is 0.01, else above 1.96 it is 0.05, else above 1.645
    it is 0.10, else above 1.28 it is 0.20, else 0.50; hence it does not
    increase when |z| grows. *)
Theorem z_to_pvalue_table (z : Qc) :
  (Num.lit 3291 1000 < Num.abs z -> z_to_pvalue z = Num.lit 1 1000) /\
  (Num.lit 2576 1000 < Num.abs z /\ Num.abs z <= Num.lit 3291 1000 ->
     z_to_pvalue z = Num.lit 1 100) /\
  (Num.lit 196 100 < Num.abs z /\ Num.abs z <= Num.lit 2576 1000 ->
     z_to_pvalue z = Num.lit 5 100) /\
  (Num.lit 1645 1000 < Num.abs z /\ Num.abs z <= Num.lit 196 100 ->
     z_to_pvalue z = Num.lit 10 100) /\
  (Num.lit 128 100 < Num.abs z /\ Num.abs z <= Num.lit 1645 1000 ->
     z_to_pvalue z = Num.lit 20 100) /\
  (Num.abs z <= Num.lit 128 100 -> z_to_pvalue z = Num.lit 50 100) /\
  (forall z' : Qc, Num.abs z <= Num.abs z' -> z_to_pvalue z' <= z_to_pvalue z).
Proof.
  repeat match goal with |- _ /\ _ => split end;
    match goal with
    | |- forall _ : Qc, _ => intros z' H
    | |- _ => intros H
    end; unfold z_to_pvalue;
    repeat match goal with
    | |- context [Num.ltb ?a ?b] => destruct (Num.ltb a b) eqn:?
    end;
    try reflexivity; cmp_to_Q; try (exfalso; lra);
    unfold Qcle; simpl; try lra; try (unfold Qle; simpl; lia).
Qed.

(** The table at z = 2 (the unit test's first case). *)
Lemma z_to_pvalue_table_witness :
  (Num.lit 196 100 < Num.abs (Num.lit 2 1)
   /\ Num.abs (Num.lit 2 1) <= Num.lit 2576 1000)
  /\ z_to_pvalue (Num.lit 2 1) = Num.lit 5 100.
Proof.
  assert (H : Num.lit 196 100 < Num.abs (Num.lit 2 1)
              /\ Num.abs (Num.lit 2 1) <= Num.lit 2576 1000).
  { split; [unfold Qclt | unfold Qcle]; vm_compute; [reflexivity | discriminate]. }
  split; [exact H | apply (z_to_pvalue_table (Num.lit 2 1)); exact H].
Defined.

(** ** Descriptive statistics of the empty sample *)

(** C9. On the empty sample [calculate_stats] returns, without raising, the
    list of ten fields (mean, median, stdev, min, max, p90, p95, p99,
    ci_lower, ci_upper), every one of them 0. *)
Theorem calculate_stats_empty (sqrt : Qc -> Qc) :
  calculate_stats sqrt [] = Return [0; 0; 0; 0; 0; 0; 0; 0; 0; 0].
Proof. reflexivity. Qed.

(** ** Welch's t-test: the tuples of the two guard paths *)

(** C1, at the failing input v1 = v2 = [1, 1] (both variances 0, standard
    error 0): the function returns the 4-tuple (0, 0, 999, "zero_variance"),
    not a 3-field result with df = 0, and unpacking it into
    [t, df, status] raises. *)
Theorem welchs_zero_variance_tuple :
  let v := [Num.lit 1 1; Num.lit 1 1] in
  welchs_t_test heron_sqrt v v
    = Return (Tuple4 0 0 (Num.lit 999 1) "zero_variance")
  /\ bind (welchs_t_test heron_sqrt v v) (fun r => Return (tuple_len r)) = Return 4%nat
  /\ bind (welchs_t_test heron_sqrt v v) unpack3 = Raise ValueError.
Proof. vm_compute. repeat split. Qed.

(** C2, at the failing input v1 = v2 = [] (n < 2): the function returns the
    4-tuple (0, 0, 0, "insufficient_data"), which does not unpack into
    [t, df, status]. *)
Theorem welchs_insufficient_tuple :
  welchs_t_test heron_sqrt [] [] = Return (Tuple4 0 0 0 "insufficient_data")
  /\ bind (welchs_t_test heron_sqrt [] []) (fun r => Return (tuple_len r)) = Return 4%nat
  /\ bind (welchs_t_test heron_sqrt [] []) unpack3 = Raise ValueError.
Proof. vm_compute. repeat split. Qed.

(** ** The rank loops terminate and stay inside the merged list *)

Section Loops.

Variable combined : list (Qc * Z).

Let len := List.length combined.

Lemma tie_scan_total (fuel i j : nat) :
  (i < len)%nat -> (i <= j)%nat -> (j <= len)%nat -> (len - j < fuel)%nat ->
  exists j', tie_scan fuel combined i j = Return j'
             /\ (j <= j')%nat /\ (j' <= len)%nat /\ (j = i -> (i < j')%nat).
Proof.
  revert j. induction fuel as [|fuel IH]; intros j Hi Hij Hj Hfuel.
  - lia.
  - simpl. fold len. destruct (Nat.ltb_spec j len) as [Hlt|Hge].
    + rewrite (py_index_nat combined j (0, 0%Z)) by exact Hlt.
      rewrite (py_index_nat combined i (0, 0%Z)) by exact Hi.
      simpl bind.
      destruct (Num.eqb (fst (nth j combined (0, 0%Z)))
                        (fst (nth i combined (0, 0%Z)))) eqn:E.
      * destruct (IH (S j)) as (j' & Hrun & H1 & H2 & _); try lia.
        exists j'. repeat split; try assumption; lia.
      * exists j. repeat split; try lia.
        intro Heq. subst j. rewrite eqb_refl in E. discriminate E.
    + exists j. repeat split; lia.
Qed.

Lemma for_range_pass (i count : nat) :
  for_range i count (fun (_ : nat) (u : unit) => Return u) tt = Return tt.
Proof. revert i. induction count as [|c IH]; intro i; simpl; auto. Qed.

Lemma for_range_sum_total (avg : Qc) (count i : nat) (acc : Qc) :
  (i + count <= len)%nat ->
  exists r, for_range i count
              (fun k acc =>
                 ck <- py_index combined (Z.of_nat k) ;;
                 Return (if (snd ck =? 1)%Z then acc + avg else acc))
              acc = Return r.
Proof.
  revert i acc. induction count as [|c IH]; intros i acc H; simpl.
  - exists acc. reflexivity.
  - rewrite (py_index_nat combined i (0, 0%Z)) by (fold len; lia).
    simpl bind. apply IH. lia.
Qed.

Lemma rank_scan_loop_total (fuel i : nat) :
  (i <= len)%nat -> (len - i < fuel)%nat ->
  rank_scan_loop fuel combined i = Return tt.
Proof.
  revert i. induction fuel as [|fuel IH]; intros i Hi Hfuel.
  - lia.
  - cbn [rank_scan_loop]. fold len. destruct (Nat.ltb_spec i len) as [Hlt|Hge].
    + destruct (tie_scan_total (S len) i i) as (j & Hrun & H1 & H2 & H3); try lia.
      rewrite Hrun. simpl bind. rewrite for_range_pass. simpl bind.
      apply IH; [exact H2 | specialize (H3 eq_refl); lia].
    + reflexivity.
Qed.

Lemma rank_sum_loop_total (fuel i : nat) (r1_sum : Qc) :
  (i <= len)%nat -> (len - i < fuel)%nat ->
  exists r, rank_sum_loop fuel combined i r1_sum = Return r.
Proof.
  revert i r1_sum. induction fuel as [|fuel IH]; intros i r1_sum Hi Hfuel.
  - lia.
  - cbn [rank_sum_loop]. fold len. destruct (Nat.ltb_spec i len) as [Hlt|Hge].
    + destruct (tie_scan_total (S len) i i) as (j & Hrun & H1 & H2 & H3); try lia.
      rewrite Hrun. simpl bind.
      destruct (for_range_sum_total (avg_rank i j) (j - i) i r1_sum) as (r & Hr);
        [lia|].
      rewrite Hr. simpl bind.
      apply IH; [exact H2 | specialize (H3 eq_refl); lia].
    + exists r1_sum. reflexivity.
Qed.

End Loops.

(** ** Signs of the quantities under the square roots *)

Lemma Qc_mult_nonneg (a b : Qc) : 0 <= a -> 0 <= b -> 0 <= a * b.
Proof.
  intros Ha Hb. rewrite <- (Qcmult_0_l b). apply Qcmult_le_compat_r; assumption.
Qed.

Lemma Qc_plus_nonneg (a b : Qc) : 0 <= a -> 0 <= b -> 0 <= a + b.
Proof.
  intros Ha Hb. rewrite <- (Qcplus_0_l 0). apply Qcplus_le_compat; assumption.
Qed.

Lemma Qc_inv_lit_nonneg (n : positive) : 0 <= / Num.lit (Zpos n) 1.
Proof.
  unfold Qcle, Num.lit, Qcinv, Q2Qc, this. rewrite !Qred_correct.
  unfold Qinv, Qle. simpl. lia.
Qed.

Lemma Qc_div_lit_nonneg (a : Qc) (n : positive) : 0 <= a -> 0 <= a / Num.lit (Zpos n) 1.
Proof.
  intro Ha. unfold Qcdiv. apply Qc_mult_nonneg; [exact Ha | apply Qc_inv_lit_nonneg].
Qed.

Lemma one_nonneg : 0 <= 1.
Proof. unfold Qcle. simpl. unfold Qle. simpl. lia. Qed.

Lemma math_sqrt_nonneg (sqrt : Qc -> Qc) (x : Qc) :
  0 <= x -> math_sqrt sqrt x = Return (sqrt x).
Proof.
  intro H. unfold math_sqrt. apply ltb_false_iff in H. rewrite H. reflexivity.
Qed.

Lemma sigma_radicand_nonneg (n1 n2 : nat) :
  0 <= (Num.of_nat n1 * Num.of_nat n2 * (Num.of_nat n1 + Num.of_nat n2 + 1))
       / Num.lit 12 1.
Proof.
  apply Qc_div_lit_nonneg.
  repeat first [apply Qc_mult_nonneg | apply Qc_plus_nonneg
               | apply of_nat_nonneg | apply one_nonneg].
Qed.

(** ** Mann-Whitney: the first scan is dead, and U1 + U2 = n1 n2 *)

(** C7. For every pair of samples [mann_whitney_u_test] returns what the
    function without its first rank-computation pass returns: the first pass
    over the sorted merged list computes the midranks and drops them (it
    always runs to its end), and the second pass alone fixes the output. *)
Theorem mann_whitney_first_pass_redundant (sqrt : Qc -> Qc) (v1 v2 : list Qc) :
  mann_whitney_u_test sqrt v1 v2 = mann_whitney_single_pass sqrt v1 v2.
Proof.
  unfold mann_whitney_u_test, mann_whitney_single_pass.
  destruct ((List.length v1 <? 3)%nat || (List.length v2 <? 3)%nat); [reflexivity|].
  cbv zeta.
  rewrite rank_scan_loop_total by lia.
  reflexivity.
Qed.

(** C5. For samples with n1 >= 3 and n2 >= 3 the rank-sum pass returns
    r1_sum, and with u1 = r1_sum - n1(n1+1)/2 and u2 = n1 n2 - u1 the sum
    u1 + u2 is exactly n1 n2; these are the u1 and u2 whose minimum the
    function returns as u_stat. *)
Theorem mann_whitney_u1_plus_u2 (sqrt : Qc -> Qc) (v1 v2 : list Qc) :
  (3 <= List.length v1)%nat -> (3 <= List.length v2)%nat ->
  let n1 := List.length v1 in
  let n2 := List.length v2 in
  let combined := combine_tagged v1 v2 in
  exists r1_sum : Qc,
    rank_sum_loop (S (List.length combined)) combined 0 0 = Return r1_sum
    /\ mw_u1 r1_sum n1 + mw_u2 (mw_u1 r1_sum n1) n1 n2
       = Num.of_nat n1 * Num.of_nat n2
    /\ exists (z_score : Qc) (status : string),
         mann_whitney_u_test sqrt v1 v2
         = Return (Num.min2 (mw_u1 r1_sum n1) (mw_u2 (mw_u1 r1_sum n1) n1 n2),
                   z_score, status).
Proof.
  intros H1 H2 n1 n2 combined.
  destruct (rank_sum_loop_total combined (S (List.length combined)) 0 0)
    as (r1_sum & Hr); try lia.
  exists r1_sum. split; [exact Hr|]. split.
  - unfold mw_u2. ring.
  - unfold mann_whitney_u_test. fold n1 n2.
    replace ((n1 <? 3)%nat || (n2 <? 3)%nat) with false.
    2:{ symmetry. apply orb_false_iff. split; apply Nat.ltb_ge; assumption. }
    cbv zeta. fold combined.
    rewrite rank_scan_loop_total by lia. cbn [bind].
    rewrite Hr. cbn [bind].
    rewrite math_sqrt_nonneg by apply sigma_radicand_nonneg.
    simpl bind.
    match goal with |- context [Num.eqb ?s 0] => destruct (Num.eqb s 0) eqn:E end.
    + eexists. eexists. reflexivity.
    + apply eqb_false_iff in E. rewrite (py_div_nonzero _ _ E). simpl bind.
      eexists. eexists. reflexivity.
Qed.

(** A run of C5 on two samples of three values each. *)
Lemma mann_whitney_u1_plus_u2_witness :
  let v1 := [Num.lit 1 1; Num.lit 2 1; Num.lit 3 1] in
  let v2 := [Num.lit 2 1; Num.lit 5 1; Num.lit 7 1] in
  ((3 <= List.length v1)%nat /\ (3 <= List.length v2)%nat)
  /\ exists r1_sum : Qc,
       rank_sum_loop (S (List.length (combine_tagged v1 v2))) (combine_tagged v1 v2) 0 0
       = Return r1_sum
       /\ mw_u1 r1_sum 3 + mw_u2 (mw_u1 r1_sum 3) 3 3 = Num.of_nat 3 * Num.of_nat 3
       /\ exists (z_score : Qc) (status : string),
            mann_whitney_u_test heron_sqrt v1 v2
            = Return (Num.min2 (mw_u1 r1_sum 3) (mw_u2 (mw_u1 r1_sum 3) 3 3),
                      z_score, status).
Proof.
  intros v1 v2. split.
  - split; simpl; lia.
  - apply (mann_whitney_u1_plus_u2 heron_sqrt v1 v2); simpl; lia.
Defined.

(** ** The normality classifier never raises *)

Lemma map_outcome_div (mean stdev : Qc) (values : list Qc) :
  stdev <> 0 ->
  map_outcome (fun x => py_div (x - mean) stdev) values
  = Return (map (fun x => (x - mean) / stdev) values).
Proof.
  intro H. induction values as [|x rest IH]; simpl.
  - reflexivity.
  - rewrite (py_div_nonzero _ _ H), IH. reflexivity.
Qed.

Lemma of_nat_nonzero (n : nat) : (0 < n)%nat -> Num.of_nat n <> 0.
Proof. intros H E. apply of_nat_eq0 in E. lia. Qed.

Lemma statistics_mean_total (values : list Qc) :
  values <> [] ->
  statistics_mean values = Return (Num.sum values / Num.of_nat (List.length values)).
Proof. destruct values; [congruence | reflexivity]. Qed.

Lemma statistics_variance_total (values : list Qc) :
  (2 <= List.length values)%nat ->
  exists v, statistics_variance values = Return v.
Proof.
  intro H. unfold statistics_variance.
  replace (List.length values <? 2)%nat with false
    by (symmetry; apply Nat.ltb_ge; exact H).
  eexists. reflexivity.
Qed.

Lemma check_normality_small (sqrt : Qc -> Qc) (values : list Qc) :
  (List.length values < 20)%nat ->
  check_normality sqrt values = Return ("insufficient_data"%string, 0, 0).
Proof.
  intro H. unfold check_normality.
  replace (List.length values <? 20)%nat with true
    by (symmetry; apply Nat.ltb_lt; exact H).
  reflexivity.
Qed.

Lemma check_normality_total (sqrt : Qc -> Qc) (values : list Qc) :
  exists status skew kurt, check_normality sqrt values = Return (status, skew, kurt).
Proof.
  unfold check_normality.
  destruct (Nat.ltb_spec (List.length values) 20) as [Hlt|Hge].
  - do 3 eexists. reflexivity.
  - rewrite statistics_mean_total by (destruct values; simpl in *; [lia | congruence]).
    cbn [bind]. unfold statistics_stdev.
    destruct (statistics_variance_total values) as (v & Hv); [lia|].
    rewrite Hv. cbn [bind].
    destruct (Num.eqb (sqrt v) 0) eqn:E.
    + do 3 eexists. reflexivity.
    + apply eqb_false_iff in E.
      rewrite (map_outcome_div _ _ _ E). cbn [bind].
      rewrite !py_div_nonzero by (apply of_nat_nonzero; lia).
      cbn [bind]. do 3 eexists. reflexivity.
Qed.

(** ** The orchestrator on short and on empty samples *)

Lemma mann_whitney_short (sqrt : Qc -> Qc) (v1 v2 : list Qc) :
  (List.length v1 < 3)%nat \/ (List.length v2 < 3)%nat ->
  mann_whitney_u_test sqrt v1 v2 = Return (0, 0, "insufficient_data"%string).
Proof.
  intro H. unfold mann_whitney_u_test.
  replace ((List.length v1 <? 3)%nat || (List.length v2 <? 3)%nat) with true.
  - reflexivity.
  - symmetry. apply orb_true_iff.
    destruct H as [H|H]; [left | right]; apply Nat.ltb_lt; exact H.
Qed.

(** With a sample shorter than 3 (hence shorter than 20) the orchestrator
    takes its [else] branch and what it does is fixed by the rank-biserial
    division alone. *)
Lemma hypothesis_test_short (sqrt : Qc -> Qc) (v1 v2 : list Qc) :
  (List.length v1 < 3)%nat \/ (List.length v2 < 3)%nat ->
  exists s1 s2 : string,
    (exists k1 k1', check_normality sqrt v1 = Return (s1, k1, k1'))
    /\ (exists k2 k2', check_normality sqrt v2 = Return (s2, k2, k2'))
    /\ hypothesis_test sqrt v1 v2
       = (effect <- calculate_rank_biserial 0 (List.length v1) (List.length v2) ;;
          Return (MannWhitneyOutcome 0 0 (Num.lit 50 100) "insufficient_data"
                    effect s1 s2)).
Proof.
  intro H.
  destruct (check_normality_total sqrt v1) as (s1 & k1 & k1' & E1).
  destruct (check_normality_total sqrt v2) as (s2 & k2 & k2' & E2).
  exists s1, s2. split; [eauto|]. split; [eauto|].
  unfold hypothesis_test. rewrite E1, E2. cbn [bind].
  assert (Hroute : String.eqb s1 "approximately_normal"
                   && String.eqb s2 "approximately_normal" = false).
  { destruct H as [H|H].
    - rewrite check_normality_small in E1 by lia.
      injection E1 as <- _ _. reflexivity.
    - rewrite check_normality_small in E2 by lia.
      injection E2 as <- _ _. apply andb_false_r. }
  rewrite Hroute, (mann_whitney_short sqrt v1 v2 H). reflexivity.
Qed.

(** C4. Whenever one of the two samples is empty, the rank-biserial effect
    size divides by n1 n2 = 0: [hypothesis_test] raises ZeroDivisionError and
    the command prints the error line instead of an insufficient_data
    outcome.  The empty sample may be the first or the second, whatever the
    other one is. *)
Theorem hypothesis_test_empty_sample_divides_by_zero (sqrt : Qc -> Qc) (v : list Qc) :
  (forall u : Qc, calculate_rank_biserial u 0 (List.length v) = Raise ZeroDivisionError)
  /\ hypothesis_test sqrt [] v = Raise ZeroDivisionError
  /\ hypothesis_test sqrt v [] = Raise ZeroDivisionError
  /\ main_hypothesis_test sqrt [] v = ErrorLine ZeroDivisionError
  /\ main_hypothesis_test sqrt v [] = ErrorLine ZeroDivisionError.
Proof.
  assert (L : forall u, calculate_rank_biserial u 0 (List.length v)
                        = Raise ZeroDivisionError).
  { intro u. unfold calculate_rank_biserial.
    replace (Num.of_nat 0 * Num.of_nat (List.length v)) with 0
      by (symmetry; apply Qcmult_0_l).
    reflexivity. }
  assert (R : calculate_rank_biserial 0 (List.length v) 0 = Raise ZeroDivisionError).
  { unfold calculate_rank_biserial.
    replace (Num.of_nat (List.length v) * Num.of_nat 0) with 0
      by (symmetry; apply Qcmult_0_r).
    reflexivity. }
  assert (A : hypothesis_test sqrt [] v = Raise ZeroDivisionError).
  { destruct (hypothesis_test_short sqrt [] v) as (s1 & s2 & _ & _ & E);
      [left; simpl; lia|].
    rewrite E. simpl List.length. rewrite L. reflexivity. }
  assert (B : hypothesis_test sqrt v [] = Raise ZeroDivisionError).
  { destruct (hypothesis_test_short sqrt v []) as (s1 & s2 & _ & _ & E);
      [right; simpl; lia|].
    rewrite E. simpl List.length. rewrite R. reflexivity. }
  split; [exact L|]. split; [exact A|]. split; [exact B|].
  unfold main_hypothesis_test. rewrite A, B. split; reflexivity.
Qed.

(** C10. For two non-empty samples of which one has fewer than 3 values, the
    orchestrator takes the Mann-Whitney branch, the test returns the
    sentinel (0, 0, insufficient_data), and the emitted outcome carries
    status insufficient_data together with effect size exactly 1: the
    rank-biserial of u_stat = 0 is 1 - 0/(n1 n2) = 1, whatever the data. *)
Theorem insufficient_data_effect_size_one (sqrt : Qc -> Qc) (v1 v2 : list Qc) :
  v1 <> [] -> v2 <> [] ->
  (List.length v1 < 3)%nat \/ (List.length v2 < 3)%nat ->
  mann_whitney_u_test sqrt v1 v2 = Return (0, 0, "insufficient_data"%string)
  /\ calculate_rank_biserial 0 (List.length v1) (List.length v2) = Return 1
  /\ exists s1 s2 : string,
       (exists k1 k1', check_normality sqrt v1 = Return (s1, k1, k1'))
       /\ (exists k2 k2', check_normality sqrt v2 = Return (s2, k2, k2'))
       /\ hypothesis_test sqrt v1 v2
          = Return (MannWhitneyOutcome 0 0 (Num.lit 50 100) "insufficient_data"
                      1 s1 s2).
Proof.
  intros N1 N2 H.
  assert (E : calculate_rank_biserial 0 (List.length v1) (List.length v2) = Return 1).
  { unfold calculate_rank_biserial.
    rewrite py_div_nonzero.
    - cbn [bind]. apply f_equal. unfold Qcdiv. ring.
    - intro K. apply Qcmult_integral in K.
      destruct K as [K|K]; apply of_nat_eq0 in K;
        [destruct v1 | destruct v2]; simpl in K; congruence. }
  split; [apply mann_whitney_short; exact H|]. split; [exact E|].
  destruct (hypothesis_test_short sqrt v1 v2 H) as (s1 & s2 & C1 & C2 & R).
  exists s1, s2. split; [exact C1|]. split; [exact C2|].
  rewrite R, E. reflexivity.
Qed.

(** A run of C10 on a one-value sample against a three-value sample. *)
Lemma insufficient_data_effect_size_one_witness :
  let v1 := [Num.lit 7 1] in
  let v2 := [Num.lit 1 1; Num.lit 2 1; Num.lit 3 1] in
  (v1 <> [] /\ v2 <> [] /\ ((List.length v1 < 3)%nat \/ (List.length v2 < 3)%nat))
  /\ (mann_whitney_u_test heron_sqrt v1 v2 = Return (0, 0, "insufficient_data"%string)
      /\ calculate_rank_biserial 0 (List.length v1) (List.length v2) = Return 1
      /\ exists s1 s2 : string,
           (exists k1 k1', check_normality heron_sqrt v1 = Return (s1, k1, k1'))
           /\ (exists k2 k2', check_normality heron_sqrt v2 = Return (s2, k2, k2'))
           /\ hypothesis_test heron_sqrt v1 v2
              = Return (MannWhitneyOutcome 0 0 (Num.lit 50 100) "insufficient_data"
                          1 s1 s2)).
Proof.
  intros v1 v2.
  assert (N1 : v1 <> []) by (unfold v1; discriminate).
  assert (N2 : v2 <> []) by (unfold v2; discriminate).
  assert (H : (List.length v1 < 3)%nat \/ (List.length v2 < 3)%nat)
    by (left; simpl; lia).
  split; [repeat split; assumption|].
  exact (insufficient_data_effect_size_one heron_sqrt v1 v2 N1 N2 H).
Defined.

(** ** [sorted] returns an ascending rearrangement *)

Lemma insert_by_perm {A : Type} (leb : A -> A -> bool) (x : A) (l : list A) :
  Permutation (insert_by leb x l) (x :: l).
Proof.
  induction l as [|y l IH]; simpl.
  - apply Permutation_refl.
  - destruct (leb x y).
    + apply Permutation_refl.
    + apply perm_trans with (y :: x :: l).
      * apply perm_skip. exact IH.
      * apply perm_swap.
Qed.

Lemma sort_by_perm {A : Type} (leb : A -> A -> bool) (l : list A) :
  Permutation (sort_by leb l) l.
Proof.
  induction l as [|x l IH]; simpl.
  - apply perm_nil.
  - apply perm_trans with (x :: sort_by leb l).
    + apply insert_by_perm.
    + apply perm_skip. exact IH.
Qed.

Lemma insert_by_hdrel (a x : Qc) (l : list Qc) :
  a <= x -> HdRel Qcle a l -> HdRel Qcle a (insert_by Num.leb x l).
Proof.
  intros Hax Hl. destruct l as [|y l]; simpl.
  - constructor. exact Hax.
  - destruct (Num.leb x y); constructor.
    + exact Hax.
    + inversion Hl; assumption.
Qed.

Lemma insert_by_sorted (x : Qc) (l : list Qc) :
  Sorted Qcle l -> Sorted Qcle (insert_by Num.leb x l).
Proof.
  induction l as [|y l IH]; intro Hs; simpl.
  - repeat constructor.
  - destruct (Num.leb x y) eqn:E.
    + constructor; [exact Hs|]. constructor. apply leb_true_iff. exact E.
    + inversion Hs as [|? ? Hs' Hhd]; subst.
      constructor; [apply IH; exact Hs'|].
      apply insert_by_hdrel; [|exact Hhd].
      apply Qclt_le_weak. apply leb_false_iff. exact E.
Qed.

Lemma sorted_Sorted (values : list Qc) : Sorted Qcle (sorted values).
Proof.
  unfold sorted, sort_by. induction values as [|x l IH]; simpl.
  - constructor.
  - apply insert_by_sorted. exact IH.
Qed.

Lemma sorted_StronglySorted (values : list Qc) : StronglySorted Qcle (sorted values).
Proof.
  apply Sorted_StronglySorted.
  - intros a b c. apply Qcle_trans.
  - apply sorted_Sorted.
Qed.

Lemma sorted_length (values : list Qc) :
  List.length (sorted values) = List.length values.
Proof. apply Permutation_length. apply sort_by_perm. Qed.

Lemma sorted_In (values : list Qc) (x : Qc) : In x (sorted values) -> In x values.
Proof. apply Permutation_in. apply sort_by_perm. Qed.

Lemma StronglySorted_nth_le (l : list Qc) (d : Qc) :
  StronglySorted Qcle l ->
  forall i j : nat, (i <= j)%nat -> (j < List.length l)%nat -> nth i l d <= nth j l d.
Proof.
  induction 1 as [|a l Hs IH Ha]; intros i j Hij Hj.
  - simpl in Hj. lia.
  - destruct i as [|i], j as [|j]; simpl in *.
    + apply Qcle_refl.
    + rewrite Forall_forall in Ha. apply Ha. apply nth_In. lia.
    + lia.
    + apply IH; lia.
Qed.

(** ** [min] and [max] bound every element *)

Lemma min2_le_l (a b : Qc) : Num.min2 a b <= a.
Proof.
  unfold Num.min2. destruct (Num.ltb b a) eqn:E.
  - apply Qclt_le_weak. apply ltb_true_iff. exact E.
  - apply Qcle_refl.
Qed.

Lemma min2_le_r (a b : Qc) : Num.min2 a b <= b.
Proof.
  unfold Num.min2. destruct (Num.ltb b a) eqn:E.
  - apply Qcle_refl.
  - apply ltb_false_iff. exact E.
Qed.

Lemma max2_ge_l (a b : Qc) : a <= Num.max2 a b.
Proof.
  unfold Num.max2. destruct (Num.ltb a b) eqn:E.
  - apply Qclt_le_weak. apply ltb_true_iff. exact E.
  - apply Qcle_refl.
Qed.

Lemma max2_ge_r (a b : Qc) : b <= Num.max2 a b.
Proof.
  unfold Num.max2. destruct (Num.ltb a b) eqn:E.
  - apply Qcle_refl.
  - apply ltb_false_iff. exact E.
Qed.

Lemma fold_min2_lower (rest : list Qc) (x y : Qc) :
  In y (x :: rest) -> fold_left Num.min2 rest x <= y.
Proof.
  revert x y. induction rest as [|a rest IH]; intros x y Hin; simpl in *.
  - destruct Hin as [<-|[]]. apply Qcle_refl.
  - destruct Hin as [<-|[<-|Hin]].
    + apply Qcle_trans with (Num.min2 x a); [apply IH; auto | apply min2_le_l].
    + apply Qcle_trans with (Num.min2 x a); [apply IH; auto | apply min2_le_r].
    + apply IH. auto.
Qed.

Lemma fold_max2_upper (rest : list Qc) (x y : Qc) :
  In y (x :: rest) -> y <= fold_left Num.max2 rest x.
Proof.
  revert x y. induction rest as [|a rest IH]; intros x y Hin; simpl in *.
  - destruct Hin as [<-|[]]. apply Qcle_refl.
  - destruct Hin as [<-|[<-|Hin]].
    + apply Qcle_trans with (Num.max2 x a); [apply max2_ge_l | apply IH; auto].
    + apply Qcle_trans with (Num.max2 x a); [apply max2_ge_r | apply IH; auto].
    + apply IH. auto.
Qed.

(** ** The percentile index [int(q * (n - 1))] *)

Lemma this_mult_of_Z (q : Qc) (m : Z) :
  (this (q * Num.of_Z m) == this q * inject_Z m)%Q.
Proof.
  unfold Qcmult, Q2Qc, this at 1. rewrite Qred_correct, this_of_Z. reflexivity.
Qed.

Lemma int_nonneg_floor (x : Qc) : 0 <= x -> Num.int x = Qfloor x.
Proof.
  intro H. unfold Num.int. apply ltb_false_iff in H. rewrite H. reflexivity.
Qed.

Lemma scaled_nonneg (q : Qc) (m : Z) : 0 <= q -> (0 <= m)%Z -> 0 <= q * Num.of_Z m.
Proof.
  intros Hq Hm. apply Qc_mult_nonneg; [exact Hq|].
  unfold Qcle. rewrite this_of_Z. simpl. unfold Qle. simpl. lia.
Qed.

Lemma percentile_index_mono (q1 q2 : Qc) (m : Z) :
  0 <= q1 -> q1 <= q2 -> (0 <= m)%Z ->
  (0 <= Num.int (q1 * Num.of_Z m) <= Num.int (q2 * Num.of_Z m))%Z.
Proof.
  intros H0 H12 Hm.
  assert (H2 : 0 <= q2) by (apply Qcle_trans with q1; assumption).
  rewrite !int_nonneg_floor by (apply scaled_nonneg; assumption).
  split.
  - change 0%Z with (Qfloor 0). apply Qfloor_resp_le.
    apply (scaled_nonneg q1 m H0 Hm).
  - apply Qfloor_resp_le. rewrite !this_mult_of_Z.
    apply Qmult_le_compat_r; [exact H12|].
    unfold Qle. simpl. lia.
Qed.

Lemma percentile_index_upper (q : Qc) (m : Z) :
  0 <= q -> q <= 1 -> (0 <= m)%Z -> (Num.int (q * Num.of_Z m) <= m)%Z.
Proof.
  intros H0 H1 Hm.
  rewrite int_nonneg_floor by (apply scaled_nonneg; assumption).
  rewrite <- (Qfloor_Z m) at 2. apply Qfloor_resp_le.
  rewrite this_mult_of_Z.
  setoid_replace (inject_Z m) with (1 * inject_Z m)%Q at 2 by ring.
  apply Qmult_le_compat_r; [exact H1|].
  unfold Qle. simpl. lia.
Qed.

(** ** Descriptive statistics of a non-empty sample *)

Lemma statistics_median_total (values : list Qc) :
  values <> [] -> exists m, statistics_median values = Return m.
Proof.
  intro Hne. unfold statistics_median. cbv zeta. rewrite sorted_length.
  assert (Hn : (0 < List.length values)%nat)
    by (destruct values; simpl; [congruence | lia]).
  destruct (Nat.eqb_spec (List.length values) 0) as [E|_]; [lia|].
  destruct (Nat.odd (List.length values)) eqn:Hodd.
  - rewrite (py_index_nat _ _ 0).
    + eexists. reflexivity.
    + rewrite sorted_length. apply Nat.div_lt; lia.
  - assert (H2 : (2 <= List.length values)%nat).
    { destruct (List.length values) as [|[|k]]; [lia | discriminate Hodd | lia]. }
    assert (Hi : (1 <= List.length values / 2)%nat).
    { apply Nat.div_le_lower_bound; lia. }
    replace (Z.of_nat (List.length values / 2) - 1)%Z
      with (Z.of_nat (List.length values / 2 - 1)) by lia.
    rewrite (py_index_nat _ _ 0).
    + cbn [bind]. rewrite (py_index_nat _ _ 0).
      * eexists. reflexivity.
      * rewrite sorted_length. apply Nat.div_lt; lia.
    + rewrite sorted_length.
      assert (List.length values / 2 < List.length values)%nat
        by (apply Nat.div_lt; lia).
      lia.
Qed.

Lemma percentile_position_bounds (q1 q2 : Qc) (n : nat) :
  (0 < n)%nat -> 0 <= q1 -> q1 <= q2 -> q2 <= 1 ->
  (percentile_position q1 n <= percentile_position q2 n)%nat
  /\ (percentile_position q2 n < n)%nat.
Proof.
  intros Hn H0 H12 H21. unfold percentile_position.
  assert (Hm : (0 <= Z.of_nat n - 1)%Z) by lia.
  assert (H2 : 0 <= q2) by (apply Qcle_trans with q1; assumption).
  pose proof (percentile_index_mono q1 q2 _ H0 H12 Hm) as [A B].
  pose proof (percentile_index_upper q2 _ H2 H21 Hm) as C.
  rewrite !int_nonneg_floor in * by (apply scaled_nonneg; assumption).
  split; lia.
Qed.

Lemma percentile_value (q : Qc) (values : list Qc) :
  values <> [] -> 0 <= q -> q <= 1 ->
  percentile (sorted values) q (List.length values)
  = Return (nth (percentile_position q (List.length values)) (sorted values) 0).
Proof.
  intros Hne H0 H1. unfold percentile.
  assert (Hn : (0 < List.length values)%nat)
    by (destruct values; simpl; [congruence | lia]).
  assert (Hm : (0 <= Z.of_nat (List.length values) - 1)%Z) by lia.
  pose proof (percentile_index_mono q q _ H0 (Qcle_refl q) Hm) as [A _].
  pose proof (percentile_position_bounds q q _ Hn H0 (Qcle_refl q) H1) as [_ B].
  rewrite int_nonneg_floor in * by (apply scaled_nonneg; assumption).
  rewrite <- (Z2Nat.id _ A). apply py_index_nat.
  rewrite sorted_length. exact B.
Qed.

Lemma lit_order :
  0 <= Num.lit 90 100 /\ Num.lit 90 100 <= Num.lit 95 100
  /\ Num.lit 95 100 <= Num.lit 99 100 /\ Num.lit 99 100 <= 1.
Proof. repeat split; unfold Qcle; vm_compute; discriminate. Qed.

(** C6. For every non-empty sample (the square root of its size being
    non-zero, as it is for [math.sqrt]), [calculate_stats] returns its ten
    fields, in which p90, p95 and p99 are the elements of the ascending-sorted
    sample at the zero-based positions floor(q (n - 1)) for q = 0.90, 0.95,
    0.99, and min <= p90 <= p95 <= p99 <= max. *)
Theorem calculate_stats_percentiles_ordered (sqrt : Qc -> Qc) (values : list Qc) :
  values <> [] ->
  sqrt (Num.of_nat (List.length values)) <> 0 ->
  let n := List.length values in
  let p90 := nth (percentile_position (Num.lit 90 100) n) (sorted values) 0 in
  let p95 := nth (percentile_position (Num.lit 95 100) n) (sorted values) 0 in
  let p99 := nth (percentile_position (Num.lit 99 100) n) (sorted values) 0 in
  exists mean median stdev min_val max_val ci_lower ci_upper : Qc,
    calculate_stats sqrt values
    = Return [mean; median; stdev; min_val; max_val; p90; p95; p99; ci_lower; ci_upper]
    /\ min_val <= p90 /\ p90 <= p95 /\ p95 <= p99 /\ p99 <= max_val.
Proof.
  intros Hne Hroot n p90 p95 p99.
  destruct lit_order as (L0 & L1 & L2 & L3).
  assert (L95 : 0 <= Num.lit 95 100) by (eapply Qcle_trans; eassumption).
  assert (L99 : 0 <= Num.lit 99 100) by (eapply Qcle_trans; eassumption).
  assert (U95 : Num.lit 95 100 <= 1) by (eapply Qcle_trans; eassumption).
  assert (U90 : Num.lit 90 100 <= 1) by (eapply Qcle_trans; eassumption).
  assert (Hn : (0 < n)%nat)
    by (unfold n; destruct values; simpl; [congruence | lia]).
  destruct (statistics_median_total values Hne) as (median & Hmed).
  assert (Hsd : exists stdev variance,
             (if (1 <? n)%nat
              then s <- statistics_stdev sqrt values ;;
                   v <- statistics_variance values ;; Return (s, v)
              else Return (0, 0)) = Return (stdev, variance)).
  { destruct (Nat.ltb_spec 1 n) as [H1|H1].
    - destruct (statistics_variance_total values) as (v & Hv); [unfold n in H1; lia|].
      unfold statistics_stdev. rewrite Hv. cbn [bind]. eauto.
    - eauto. }
  destruct Hsd as (stdev & variance & Hsd).
  pose proof (percentile_position_bounds _ _ n Hn L0 L1 U95) as [P1 _].
  pose proof (percentile_position_bounds _ _ n Hn L95 L2 L3) as [P2 P3].
  assert (S : StronglySorted Qcle (sorted values)) by apply sorted_StronglySorted.
  assert (Hlen : List.length (sorted values) = n) by apply sorted_length.
  destruct values as [|x rest]; [congruence|].
  exists (Num.sum (x :: rest) / Num.of_nat n), median, stdev,
    (fold_left Num.min2 rest x), (fold_left Num.max2 rest x).
  do 2 eexists. split; [|split; [|split; [|split]]].
  - unfold calculate_stats.
    rewrite statistics_mean_total by exact Hne. cbn [bind].
    rewrite Hmed. cbn [bind]. fold n. rewrite Hsd. cbn [py_min py_max bind].
    unfold n. rewrite !percentile_value by assumption. cbn [bind]. fold n.
    replace (0 <? n)%nat with true by (symmetry; apply Nat.ltb_lt; exact Hn).
    rewrite math_sqrt_nonneg by apply of_nat_nonneg. cbn [bind].
    rewrite (py_div_nonzero _ _ Hroot). cbn [bind]. reflexivity.
  - apply fold_min2_lower. apply sorted_In. apply nth_In. lia.
  - apply StronglySorted_nth_le; [exact S | exact P1 | lia].
  - apply StronglySorted_nth_le; [exact S | exact P2 | lia].
  - apply fold_max2_upper. apply sorted_In. apply nth_In. lia.
Qed.

(** A run of C6 on the unit test's sample 1..5. *)
Lemma calculate_stats_percentiles_ordered_witness :
  let values := [Num.lit 1 1; Num.lit 2 1; Num.lit 3 1; Num.lit 4 1; Num.lit 5 1] in
  let n := List.length values in
  let p90 := nth (percentile_position (Num.lit 90 100) n) (sorted values) 0 in
  let p95 := nth (percentile_position (Num.lit 95 100) n) (sorted values) 0 in
  let p99 := nth (percentile_position (Num.lit 99 100) n) (sorted values) 0 in
  (values <> [] /\ heron_sqrt (Num.of_nat (List.length values)) <> 0)
  /\ exists mean median stdev min_val max_val ci_lower ci_upper : Qc,
       calculate_stats heron_sqrt values
       = Return [mean; median; stdev; min_val; max_val; p90; p95; p99;
                 ci_lower; ci_upper]
       /\ min_val <= p90 /\ p90 <= p95 /\ p95 <= p99 /\ p99 <= max_val.
Proof.
  intros values n p90 p95 p99.
  assert (Hne : values <> []) by (unfold values; discriminate).
  assert (Hroot : heron_sqrt (Num.of_nat (List.length values)) <> 0)
    by (apply eqb_false_iff; vm_compute; reflexivity).
  split; [split; assumption|].
  exact (calculate_stats_percentiles_ordered heron_sqrt values Hne Hroot).
Defined.

(** ** Variances are not negative *)

Lemma Qc_square_nonneg (a : Qc) : 0 <= a * a.
Proof.
  destruct (Qclt_le_dec a 0) as [Hneg|Hpos].
  - replace (a * a) with ((- a) * (- a)) by ring.
    assert (H : 0 <= - a).
    { replace 0 with (- 0) by ring. apply Qcopp_le_compat.
      apply Qclt_le_weak. exact Hneg. }
    apply Qc_mult_nonneg; exact H.
  - apply Qc_mult_nonneg; exact Hpos.
Qed.

Lemma fold_plus_nonneg (l : list Qc) (acc : Qc) :
  Forall (fun x => 0 <= x) l -> 0 <= acc -> 0 <= fold_left Qcplus l acc.
Proof.
  revert acc. induction l as [|x l IH]; intros acc Hl Hacc; simpl.
  - exact Hacc.
  - inversion Hl; subst. apply IH; [assumption|].
    apply Qc_plus_nonneg; assumption.
Qed.

Lemma Qc_inv_pos (y : Qc) : 0 < y -> 0 < / y.
Proof.
  intro H. unfold Qclt. change (this (/ y)) with (Qred (/ this y)).
  rewrite Qred_correct. apply Qinv_lt_0_compat. exact H.
Qed.

Lemma Qc_div_nonneg (x y : Qc) : 0 <= x -> 0 < y -> 0 <= x / y.
Proof.
  intros Hx Hy. unfold Qcdiv. apply Qc_mult_nonneg; [exact Hx|].
  apply Qclt_le_weak. apply Qc_inv_pos. exact Hy.
Qed.

Lemma Qc_div_pos (x y : Qc) : 0 < x -> 0 < y -> 0 < x / y.
Proof.
  intros Hx Hy. unfold Qcdiv. rewrite <- (Qcmult_0_l (/ y)).
  apply Qcmult_lt_compat_r; [apply Qc_inv_pos; exact Hy | exact Hx].
Qed.

Lemma of_nat_pred_pos (n : nat) : (2 <= n)%nat -> 0 < Num.of_nat n - 1.
Proof.
  intro H. unfold Qclt.
  change (this (Num.of_nat n - 1))
    with (Qred (this (Num.of_Z (Z.of_nat n)) + Qred (- this 1))).
  rewrite !Qred_correct, this_of_Z.
  unfold Qlt, Qplus, Qopp, inject_Z. simpl. lia.
Qed.

Lemma statistics_variance_nonneg (values : list Qc) (v : Qc) :
  statistics_variance values = Return v -> 0 <= v.
Proof.
  unfold statistics_variance.
  destruct (Nat.ltb_spec (List.length values) 2) as [H|H]; [discriminate|].
  intro E. injection E as <-.
  apply Qc_div_nonneg; [|apply of_nat_pred_pos; exact H].
  apply fold_plus_nonneg; [|apply Qcle_refl].
  apply Forall_forall. intros y Hy. apply in_map_iff in Hy.
  destruct Hy as (x & <- & _). apply Qc_square_nonneg.
Qed.

(** ** The orchestrator and the empty sample *)

(** C3, at the failing input v1 = [], v2 = [1, 2, 3]: the first sample is
    not approximately normal, the Mann-Whitney test runs and returns its
    sentinel, yet no MannWhitneyOutcome is emitted: the rank-biserial
    division raises and the command prints the error line. *)
Theorem hypothesis_test_no_outcome_on_empty_sample :
  let v1 := @nil Qc in
  let v2 := [Num.lit 1 1; Num.lit 2 1; Num.lit 3 1] in
  check_normality heron_sqrt v1 = Return ("insufficient_data"%string, 0, 0)
  /\ check_normality heron_sqrt v2 = Return ("insufficient_data"%string, 0, 0)
  /\ mann_whitney_u_test heron_sqrt v1 v2 = Return (0, 0, "insufficient_data"%string)
  /\ hypothesis_test heron_sqrt v1 v2 = Raise ZeroDivisionError
  /\ main_hypothesis_test heron_sqrt v1 v2 = ErrorLine ZeroDivisionError.
Proof. vm_compute. repeat split. Qed.

(** ** Welch's t-test on all of its paths *)

(** Every input of the size guard gets the same 4-tuple. *)
Lemma welchs_insufficient_general (sqrt : Qc -> Qc) (v1 v2 : list Qc) :
  (List.length v1 < 2)%nat \/ (List.length v2 < 2)%nat ->
  welchs_t_test sqrt v1 v2 = Return (Tuple4 0 0 0 "insufficient_data").
Proof.
  intro H. unfold welchs_t_test.
  replace ((List.length v1 <? 2)%nat || (List.length v2 <? 2)%nat) with true.
  - reflexivity.
  - symmetry. apply orb_true_iff.
    destruct H as [H|H]; [left | right]; apply Nat.ltb_lt; exact H.
Qed.

Lemma welchs_prefix (sqrt : Qc -> Qc) (v1 v2 : list Qc) (s1 s2 : Qc) :
  (2 <= List.length v1)%nat -> (2 <= List.length v2)%nat ->
  statistics_variance v1 = Return s1 -> statistics_variance v2 = Return s2 ->
  let n1 := Num.of_nat (List.length v1) in
  let n2 := Num.of_nat (List.length v2) in
  let se := sqrt (s1 / n1 + s2 / n2) in
  welchs_t_test sqrt v1 v2
  = if Num.eqb se 0 then Return (Tuple4 0 0 (Num.lit 999 1) "zero_variance")
    else
      t_stat <- py_div (Num.sum v1 / n1 - Num.sum v2 / n2) se ;;
      l <- py_div ((s1 / n1) ^ 2) (n1 - 1) ;;
      r <- py_div ((s2 / n2) ^ 2) (n2 - 1) ;;
      df <- (if Num.ltb 0 (l + r) then py_div ((s1 / n1 + s2 / n2) ^ 2) (l + r)
             else Return (Num.lit 30 1)) ;;
      Return (Tuple3 t_stat df "success").
Proof.
  intros H1 H2 E1 E2 n1 n2 se. unfold welchs_t_test.
  replace ((List.length v1 <? 2)%nat || (List.length v2 <? 2)%nat) with false.
  2:{ symmetry. apply orb_false_iff. split; apply Nat.ltb_ge; assumption. }
  assert (N1 : n1 <> 0) by (apply of_nat_nonzero; lia).
  assert (N2 : n2 <> 0) by (apply of_nat_nonzero; lia).
  rewrite !statistics_mean_total
    by (intro K; rewrite K in *; simpl in *; lia).
  rewrite E1, E2. cbn [bind]. fold n1 n2.
  rewrite !(py_div_nonzero _ _ N1), !(py_div_nonzero _ _ N2). cbn [bind].
  rewrite math_sqrt_nonneg.
  - cbn [bind]. fold se. destruct (Num.eqb se 0); reflexivity.
  - apply Qc_plus_nonneg; apply Qc_div_nonneg;
      eauto using statistics_variance_nonneg; apply of_nat_pos; lia.
Qed.

(** Every input with standard error 0 gets the 4-tuple with the sentinel 999. *)
Lemma welchs_zero_variance_general (sqrt : Qc -> Qc) (v1 v2 : list Qc) (s1 s2 : Qc) :
  (2 <= List.length v1)%nat -> (2 <= List.length v2)%nat ->
  statistics_variance v1 = Return s1 -> statistics_variance v2 = Return s2 ->
  sqrt (s1 / Num.of_nat (List.length v1) + s2 / Num.of_nat (List.length v2)) = 0 ->
  welchs_t_test sqrt v1 v2 = Return (Tuple4 0 0 (Num.lit 999 1) "zero_variance").
Proof.
  intros H1 H2 E1 E2 Hse.
  rewrite (welchs_prefix sqrt v1 v2 s1 s2 H1 H2 E1 E2). cbv zeta.
  rewrite Hse. reflexivity.
Qed.

Lemma Qc_pos_nonzero (x : Qc) : 0 < x -> x <> 0.
Proof. intros H E. rewrite E in H. exact (Qclt_not_eq _ _ H eq_refl). Qed.

Lemma Qc_plus_pos (a b : Qc) : 0 < a -> 0 < b -> 0 < a + b.
Proof.
  intros Ha Hb. apply Qclt_le_trans with a; [exact Ha|].
  rewrite <- (Qcplus_0_r a) at 1.
  apply Qcplus_le_compat; [apply Qcle_refl | apply Qclt_le_weak; exact Hb].
Qed.

(** With a square root that vanishes only at 0, positive variances give the
    3-tuple of the success path. *)
Lemma welchs_success (sqrt : Qc -> Qc) (v1 v2 : list Qc) (s1 s2 : Qc) :
  (forall x, 0 < x -> sqrt x <> 0) ->
  (2 <= List.length v1)%nat -> (2 <= List.length v2)%nat ->
  statistics_variance v1 = Return s1 -> statistics_variance v2 = Return s2 ->
  0 < s1 -> 0 < s2 ->
  exists t_stat df, welchs_t_test sqrt v1 v2 = Return (Tuple3 t_stat df "success").
Proof.
  intros Hpos H1 H2 E1 E2 P1 P2.
  rewrite (welchs_prefix sqrt v1 v2 s1 s2 H1 H2 E1 E2). cbv zeta.
  assert (Hse : sqrt (s1 / Num.of_nat (List.length v1)
                      + s2 / Num.of_nat (List.length v2)) <> 0).
  { apply Hpos. apply Qc_plus_pos; apply Qc_div_pos;
      try assumption; apply of_nat_pos; lia. }
  apply eqb_false_iff in Hse. rewrite Hse. apply eqb_false_iff in Hse.
  rewrite (py_div_nonzero _ _ Hse). cbn [bind].
  rewrite !py_div_nonzero
    by (apply Qc_pos_nonzero; apply of_nat_pred_pos; assumption).
  cbn [bind].
  match goal with |- context [Num.ltb 0 ?d] => destruct (Num.ltb 0 d) eqn:D end.
  - apply ltb_true_iff in D. rewrite (py_div_nonzero _ _ (Qc_pos_nonzero _ D)).
    cbn [bind]. eauto.
  - cbn [bind]. eauto.
Qed.

(** ** The orchestrator on non-empty samples *)

Lemma check_normality_normal_inv (sqrt : Qc -> Qc) (values : list Qc) (k k' : Qc) :
  check_normality sqrt values = Return ("approximately_normal"%string, k, k') ->
  (20 <= List.length values)%nat
  /\ exists s, statistics_variance values = Return s /\ sqrt s <> 0.
Proof.
  unfold check_normality.
  destruct (Nat.ltb_spec (List.length values) 20) as [Hlt|Hge]; [discriminate|].
  rewrite statistics_mean_total by (destruct values; simpl in *; [lia | congruence]).
  cbn [bind]. unfold statistics_stdev.
  destruct (statistics_variance_total values) as (s & Hs); [lia|].
  rewrite Hs. cbn [bind].
  destruct (Num.eqb (sqrt s) 0) eqn:E; [discriminate|].
  intros _. split; [exact Hge|]. exists s. split; [reflexivity|].
  apply eqb_false_iff. exact E.
Qed.

Lemma lit_two : Num.lit 2 1 = 1 + 1.
Proof. apply Qc_is_canon. reflexivity. Qed.

Lemma calculate_cohens_d_total (sqrt : Qc -> Qc) (m1 m2 s1 s2 : Qc) (n1 n2 : nat) :
  0 <= s1 -> 0 <= s2 -> (2 <= n1)%nat -> (2 <= n2)%nat ->
  exists d, calculate_cohens_d sqrt m1 m2 s1 s2 n1 n2 = Return d.
Proof.
  intros P1 P2 H1 H2. unfold calculate_cohens_d.
  pose proof (of_nat_pred_pos n1 H1) as A.
  pose proof (of_nat_pred_pos n2 H2) as B.
  assert (D : Num.of_nat n1 + Num.of_nat n2 - Num.lit 2 1
              = (Num.of_nat n1 - 1) + (Num.of_nat n2 - 1))
    by (rewrite lit_two; ring).
  assert (Dpos : 0 < Num.of_nat n1 + Num.of_nat n2 - Num.lit 2 1)
    by (rewrite D; apply Qc_plus_pos; assumption).
  rewrite (py_div_nonzero _ _ (Qc_pos_nonzero _ Dpos)). cbn [bind].
  rewrite math_sqrt_nonneg.
  - cbn [bind].
    match goal with |- context [Num.ltb 0 ?d] => destruct (Num.ltb 0 d) eqn:E end.
    + apply ltb_true_iff in E. rewrite (py_div_nonzero _ _ (Qc_pos_nonzero _ E)).
      eauto.
    + eauto.
  - apply Qc_div_nonneg; [|exact Dpos].
    apply Qc_plus_nonneg; apply Qc_mult_nonneg;
      try assumption; apply Qclt_le_weak; assumption.
Qed.

Lemma mann_whitney_total (sqrt : Qc -> Qc) (v1 v2 : list Qc) :
  exists u z status, mann_whitney_u_test sqrt v1 v2 = Return (u, z, status).
Proof.
  unfold mann_whitney_u_test.
  destruct ((List.length v1 <? 3)%nat || (List.length v2 <? 3)%nat); [eauto|].
  cbv zeta. rewrite rank_scan_loop_total by lia. cbn [bind].
  destruct (rank_sum_loop_total (combine_tagged v1 v2)
              (S (List.length (combine_tagged v1 v2))) 0 0) as (r & Hr); try lia.
  rewrite Hr. cbn [bind].
  rewrite math_sqrt_nonneg by apply sigma_radicand_nonneg. cbn [bind].
  match goal with |- context [Num.eqb ?s 0] => destruct (Num.eqb s 0) eqn:E end.
  - eauto.
  - apply eqb_false_iff in E. rewrite (py_div_nonzero _ _ E). cbn [bind]. eauto.
Qed.

Lemma calculate_rank_biserial_total (u : Qc) (n1 n2 : nat) :
  (0 < n1)%nat -> (0 < n2)%nat ->
  calculate_rank_biserial u n1 n2
  = Return (1 - (Num.lit 2 1 * u) / (Num.of_nat n1 * Num.of_nat n2)).
Proof.
  intros H1 H2. unfold calculate_rank_biserial. rewrite py_div_nonzero.
  - reflexivity.
  - intro K. apply Qcmult_integral in K.
    destruct K as [K|K]; apply of_nat_eq0 in K; lia.
Qed.

(** Routing on the code: for two non-empty samples, and a square
    root that is 0 at 0 and nowhere else above it, the orchestrator emits a
    WelchOutcome (from the 3-tuple of the test, with the p-value of
    [t_to_pvalue]) exactly when both normality statuses are
    approximately_normal, and otherwise a MannWhitneyOutcome (with the
    rank-biserial effect size and the p-value of [z_to_pvalue]); both carry
    the two statuses. *)
Lemma hypothesis_test_routing (sqrt : Qc -> Qc) (v1 v2 : list Qc) :
  sqrt 0 = 0 -> (forall x, 0 < x -> sqrt x <> 0) ->
  v1 <> [] -> v2 <> [] ->
  exists (s1 s2 : string) (k1 k1' k2 k2' : Qc),
    check_normality sqrt v1 = Return (s1, k1, k1')
    /\ check_normality sqrt v2 = Return (s2, k2, k2')
    /\ ((s1 = "approximately_normal"%string /\ s2 = "approximately_normal"%string
         /\ exists t df effect,
              welchs_t_test sqrt v1 v2 = Return (Tuple3 t df "success")
              /\ hypothesis_test sqrt v1 v2
                 = Return (WelchOutcome t df (t_to_pvalue t df) "success" effect s1 s2))
        \/ (~ (s1 = "approximately_normal"%string /\ s2 = "approximately_normal"%string)
            /\ exists u z status effect,
                 mann_whitney_u_test sqrt v1 v2 = Return (u, z, status)
                 /\ calculate_rank_biserial u (List.length v1) (List.length v2)
                    = Return effect
                 /\ hypothesis_test sqrt v1 v2
                    = Return (MannWhitneyOutcome u z (z_to_pvalue z) status effect s1 s2))).
Proof.
  intros H0 Hpos N1 N2.
  destruct (check_normality_total sqrt v1) as (s1 & k1 & k1' & E1).
  destruct (check_normality_total sqrt v2) as (s2 & k2 & k2' & E2).
  exists s1, s2, k1, k1', k2, k2'. split; [exact E1|]. split; [exact E2|].
  unfold hypothesis_test. rewrite E1, E2. cbn [bind].
  destruct (String.eqb_spec s1 "approximately_normal") as [A1|A1];
    [destruct (String.eqb_spec s2 "approximately_normal") as [A2|A2]|].
  - left. subst s1 s2. split; [reflexivity|]. split; [reflexivity|].
    destruct (check_normality_normal_inv _ _ _ _ E1) as (L1 & w1 & V1 & R1).
    destruct (check_normality_normal_inv _ _ _ _ E2) as (L2 & w2 & V2 & R2).
    assert (P1 : 0 < w1).
    { destruct (Qcle_lt_or_eq _ _ (statistics_variance_nonneg _ _ V1)) as [P|P];
        [exact P | subst w1; contradiction]. }
    assert (P2 : 0 < w2).
    { destruct (Qcle_lt_or_eq _ _ (statistics_variance_nonneg _ _ V2)) as [P|P];
        [exact P | subst w2; contradiction]. }
    destruct (welchs_success sqrt v1 v2 w1 w2 Hpos) as (t & df & W);
      try assumption; try lia.
    destruct (calculate_cohens_d_total sqrt
                (Num.sum v1 / Num.of_nat (List.length v1))
                (Num.sum v2 / Num.of_nat (List.length v2))
                w1 w2 (List.length v1) (List.length v2)) as (d & Hd);
      try (apply Qclt_le_weak; assumption); try lia.
    exists t, df, d. split; [exact W|].
    cbn [andb]. rewrite W. cbn [bind unpack3].
    rewrite !statistics_mean_total by assumption. cbn [bind].
    rewrite V1, V2. cbn [bind]. rewrite Hd. reflexivity.
  - right. split; [intros [_ K]; contradiction|].
    destruct (mann_whitney_total sqrt v1 v2) as (u & z & st & M).
    exists u, z, st. eexists. split; [exact M|].
    rewrite calculate_rank_biserial_total
      by (destruct v1, v2; simpl; try congruence; lia).
    split; [reflexivity|].
    cbn [andb]. rewrite M. cbn [bind].
    rewrite calculate_rank_biserial_total
      by (destruct v1, v2; simpl; try congruence; lia).
    reflexivity.
  - right. split; [intros [K _]; contradiction|].
    destruct (mann_whitney_total sqrt v1 v2) as (u & z & st & M).
    exists u, z, st. eexists. split; [exact M|].
    rewrite calculate_rank_biserial_total
      by (destruct v1, v2; simpl; try congruence; lia).
    split; [reflexivity|].
    cbn [andb]. rewrite M. cbn [bind].
    rewrite calculate_rank_biserial_total
      by (destruct v1, v2; simpl; try congruence; lia).
    reflexivity.
Qed.

(** ** The executable square root meets the two hypotheses *)

Lemma lit_two_pos : 0 < Num.lit 2 1.
Proof. unfold Qclt. vm_compute. reflexivity. Qed.

Lemma heron_pos (x : Qc) (steps : nat) (guess : Qc) :
  0 < x -> 0 < guess -> 0 < heron x steps guess.
Proof.
  intro Hx. revert guess. induction steps as [|k IH]; intros guess Hg; simpl.
  - exact Hg.
  - apply IH. apply Qc_div_pos; [|apply lit_two_pos].
    apply Qc_plus_pos; [exact Hg | apply Qc_div_pos; assumption].
Qed.

Lemma heron_sqrt_zero : heron_sqrt 0 = 0.
Proof. reflexivity. Qed.

Lemma heron_sqrt_nonzero (x : Qc) : 0 < x -> heron_sqrt x <> 0.
Proof.
  intro Hx. unfold heron_sqrt.
  replace (Num.leb x 0) with false by (symmetry; apply leb_false_iff; exact Hx).
  apply Qc_pos_nonzero. apply heron_pos; [exact Hx|].
  apply Qc_div_pos; [|apply lit_two_pos].
  apply Qc_plus_pos; [exact Hx|]. unfold Qclt. vm_compute. reflexivity.
Qed.

(** The routing on the unit test's two samples, with the executable root. *)
Lemma hypothesis_test_routing_run :
  let v1 := map Num.of_Z [1; 2; 3; 4; 5]%Z in
  let v2 := map Num.of_Z [10; 20; 30; 40; 50]%Z in
  exists (s1 s2 : string) (k1 k1' k2 k2' : Qc),
    check_normality heron_sqrt v1 = Return (s1, k1, k1')
    /\ check_normality heron_sqrt v2 = Return (s2, k2, k2')
    /\ ((s1 = "approximately_normal"%string /\ s2 = "approximately_normal"%string
         /\ exists t df effect,
              welchs_t_test heron_sqrt v1 v2 = Return (Tuple3 t df "success")
              /\ hypothesis_test heron_sqrt v1 v2
                 = Return (WelchOutcome t df (t_to_pvalue t df) "success" effect s1 s2))
        \/ (~ (s1 = "approximately_normal"%string /\ s2 = "approximately_normal"%string)
            /\ exists u z status effect,
                 mann_whitney_u_test heron_sqrt v1 v2 = Return (u, z, status)
                 /\ calculate_rank_biserial u (List.length v1) (List.length v2)
                    = Return effect
                 /\ hypothesis_test heron_sqrt v1 v2
                    = Return (MannWhitneyOutcome u z (z_to_pvalue z) status effect s1 s2))).
Proof.
  intros v1 v2.
  apply (hypothesis_test_routing heron_sqrt v1 v2 heron_sqrt_zero heron_sqrt_nonzero);
    unfold v1, v2; discriminate.
Defined.

(** The unit test [test_mann_whitney_u_test]: no overlap, U = 0, success. *)
Example mann_whitney_unit_test :
  exists z, mann_whitney_u_test heron_sqrt
              (map Num.of_Z [1; 2; 3; 4; 5]%Z) (map Num.of_Z [10; 20; 30; 40; 50]%Z)
            = Return (0, z, "success"%string).
Proof. eexists. vm_compute. reflexivity. Qed.

(* ========================================================================= *)
(** * Further properties of the module *)

(** ** Absolute value *)

Lemma this_opp (x : Qc) : (this (- x) == - this x)%Q.
Proof. unfold Qcopp, Q2Qc, this at 1. apply Qred_correct. Qed.

Lemma abs_opp (x : Qc) : Num.abs (- x) = Num.abs x.
Proof.
  unfold Num.abs.
  destruct (Num.ltb (- x) 0) eqn:A, (Num.ltb x 0) eqn:B;
    try reflexivity; try apply Qcopp_involutive.
  - apply ltb_true_iff in A, B. unfold Qclt in A, B. rewrite this_opp in A.
    simpl this in *. exfalso. lra.
  - apply ltb_false_iff in A, B. unfold Qcle in A, B. rewrite this_opp in A.
    apply Qc_is_canon. rewrite this_opp. simpl this in *. lra.
Qed.

Lemma abs_nonneg (x : Qc) : 0 <= Num.abs x.
Proof.
  unfold Num.abs. destruct (Num.ltb x 0) eqn:A.
  - apply ltb_true_iff in A. unfold Qclt in A. unfold Qcle. rewrite this_opp.
    simpl this in *. lra.
  - apply ltb_false_iff in A. exact A.
Qed.

(** ** The p-value table for t and the effect-size bands *)

(** [t_to_pvalue] never rewards a weaker statistic or fewer degrees of
    freedom: when |t| <= |t'| and df <= df', the p-value for (t', df') is at
    most the one for (t, df).  In particular the table for df <= 30 is never
    below the table for df > 30. *)
Theorem t_to_pvalue_monotone (t t' df df' : Qc) :
  Num.abs t <= Num.abs t' -> df <= df' ->
  t_to_pvalue t' df' <= t_to_pvalue t df.
Proof.
  intros Ht Hdf. unfold t_to_pvalue.
  repeat match goal with
  | |- context [Num.ltb ?a ?b] => destruct (Num.ltb a b) eqn:?
  end;
  cmp_to_Q; try (exfalso; lra);
  unfold Qcle; simpl; try lra; try (unfold Qle; simpl; lia).
Qed.

Lemma t_to_pvalue_monotone_witness :
  (Num.abs (Num.lit 2 1) <= Num.abs (Num.lit (-3) 1) /\ Num.lit 10 1 <= Num.lit 40 1)
  /\ t_to_pvalue (Num.lit (-3) 1) (Num.lit 40 1)
     <= t_to_pvalue (Num.lit 2 1) (Num.lit 10 1).
Proof.
  assert (A : Num.abs (Num.lit 2 1) <= Num.abs (Num.lit (-3) 1))
    by (unfold Qcle; vm_compute; discriminate).
  assert (B : Num.lit 10 1 <= Num.lit 40 1)
    by (unfold Qcle; vm_compute; discriminate).
  split; [split; assumption|].
  exact (t_to_pvalue_monotone _ _ _ _ A B).
Defined.

(** [t_to_pvalue] only returns 0.001, 0.01, 0.05, 0.10 or 0.20, and the
    smallest of them, 0.001, only for df > 30 and |t| > 3.5. *)
Theorem t_to_pvalue_range (t df : Qc) :
  In (t_to_pvalue t df)
     [Num.lit 1 1000; Num.lit 1 100; Num.lit 5 100; Num.lit 10 100; Num.lit 20 100]
  /\ (t_to_pvalue t df = Num.lit 1 1000 <->
      Num.lit 30 1 < df /\ Num.lit 35 10 < Num.abs t).
Proof.
  unfold t_to_pvalue.
  repeat match goal with
  | |- context [Num.ltb ?a ?b] => destruct (Num.ltb a b) eqn:?
  end;
  (split; [simpl; tauto|]);
  (split;
   [ intro E; try (apply (f_equal this) in E; vm_compute in E; discriminate E);
     split; apply ltb_true_iff; assumption
   | intros [A B]; try reflexivity; apply ltb_true_iff in A, B; congruence ]).
Qed.

(** The sign of the effect does not matter to its interpretation, and the
    bands on |effect| are: below 0.2 negligible, below 0.5 small, below 0.8
    medium, otherwise large. *)
Theorem interpret_effect_size_bands (effect : Qc) :
  interpret_effect_size (- effect) = interpret_effect_size effect
  /\ (interpret_effect_size effect = "negligible"%string
      <-> Num.abs effect < Num.lit 2 10)
  /\ (interpret_effect_size effect = "small"%string
      <-> Num.lit 2 10 <= Num.abs effect /\ Num.abs effect < Num.lit 5 10)
  /\ (interpret_effect_size effect = "medium"%string
      <-> Num.lit 5 10 <= Num.abs effect /\ Num.abs effect < Num.lit 8 10)
  /\ (interpret_effect_size effect = "large"%string
      <-> Num.lit 8 10 <= Num.abs effect).
Proof.
  split.
  { unfold interpret_effect_size. rewrite abs_opp. reflexivity. }
  unfold interpret_effect_size.
  repeat match goal with
  | |- context [Num.ltb ?a ?b] => destruct (Num.ltb a b) eqn:?
  end;
  repeat match goal with |- _ /\ _ => split | |- _ <-> _ => split end;
  intros; try reflexivity; try discriminate;
  cmp_to_Q; try (exfalso; lra);
  unfold Qclt, Qcle; simpl this; try lra.
Qed.

(** [z_to_pvalue] ignores the sign of z and returns a value between 0.001
    and 0.50. *)
Theorem z_to_pvalue_sign_and_range (z : Qc) :
  z_to_pvalue (- z) = z_to_pvalue z
  /\ Num.lit 1 1000 <= z_to_pvalue z /\ z_to_pvalue z <= Num.lit 50 100.
Proof.
  split.
  { unfold z_to_pvalue. rewrite abs_opp. reflexivity. }
  unfold z_to_pvalue.
  repeat match goal with
  | |- context [Num.ltb ?a ?b] => destruct (Num.ltb a b) eqn:?
  end;
  split; unfold Qcle; vm_compute; discriminate.
Qed.

(** ** Sorting is insensitive to the order of its input *)

Section SortUnique.

Variable A : Type.
Variable leb : A -> A -> bool.
Hypothesis leb_total : forall x y, leb x y = true \/ leb y x = true.
Hypothesis leb_trans : forall x y z, leb x y = true -> leb y z = true -> leb x z = true.
Hypothesis leb_antisym : forall x y, leb x y = true -> leb y x = true -> x = y.

Let le (x y : A) : Prop := leb x y = true.

Lemma insert_by_hdrel_gen (a x : A) (l : list A) :
  le a x -> HdRel le a l -> HdRel le a (insert_by leb x l).
Proof.
  intros Hax Hl. destruct l as [|y l]; simpl.
  - constructor. exact Hax.
  - destruct (leb x y); constructor; [exact Hax | inversion Hl; assumption].
Qed.

Lemma sort_by_Sorted (l : list A) : Sorted le (sort_by leb l).
Proof.
  induction l as [|x l IH]; simpl; [constructor|].
  fold (sort_by leb l). revert IH. generalize (sort_by leb l) as s.
  induction s as [|y s IHs]; intro Hs; simpl.
  - repeat constructor.
  - destruct (leb x y) eqn:E.
    + constructor; [exact Hs | constructor; exact E].
    + inversion Hs as [|? ? Hs' Hhd]; subst.
      constructor; [apply IHs; exact Hs'|].
      apply insert_by_hdrel_gen; [|exact Hhd].
      destruct (leb_total x y) as [K|K]; [congruence | exact K].
Qed.

Lemma sort_by_StronglySorted (l : list A) : StronglySorted le (sort_by leb l).
Proof.
  apply Sorted_StronglySorted; [|apply sort_by_Sorted].
  intros x y z. apply leb_trans.
Qed.

Lemma StronglySorted_perm_eq (l l' : list A) :
  StronglySorted le l -> StronglySorted le l' -> Permutation l l' -> l = l'.
Proof.
  intro Hl. revert l'. induction Hl as [|a l Hs IH Ha]; intros l' Hl' P.
  - apply Permutation_nil in P. subst. reflexivity.
  - destruct Hl' as [|b l' Hs' Hb].
    + apply Permutation_sym, Permutation_nil in P. discriminate P.
    + assert (Hab : a = b).
      { rewrite Forall_forall in Ha, Hb.
        assert (Ia : In a (b :: l')) by (eapply Permutation_in; [exact P | left; reflexivity]).
        assert (Ib : In b (a :: l))
          by (eapply Permutation_in; [apply Permutation_sym; exact P | left; reflexivity]).
        destruct Ia as [Ea|Ia]; [symmetry; exact Ea|].
        destruct Ib as [Eb|Ib]; [exact Eb|].
        apply leb_antisym; [apply Ha; exact Ib | apply Hb; exact Ia]. }
      subst b. f_equal. apply IH; [exact Hs'|].
      eapply Permutation_cons_inv. exact P.
Qed.

Lemma sort_by_perm_eq (l l' : list A) :
  Permutation l l' -> sort_by leb l = sort_by leb l'.
Proof.
  intro P. apply StronglySorted_perm_eq; try apply sort_by_StronglySorted.
  apply perm_trans with l; [apply sort_by_perm|].
  apply perm_trans with l'; [exact P | apply Permutation_sym, sort_by_perm].
Qed.

End SortUnique.

Lemma sorted_perm_eq (l l' : list Qc) : Permutation l l' -> sorted l = sorted l'.
Proof.
  apply sort_by_perm_eq.
  - intros x y. destruct (Num.leb x y) eqn:E; [left; reflexivity|].
    right. apply leb_true_iff. apply Qclt_le_weak. apply leb_false_iff. exact E.
  - intros x y z H1 H2. apply leb_true_iff in H1, H2. apply leb_true_iff.
    eapply Qcle_trans; eassumption.
  - intros x y H1 H2. apply leb_true_iff in H1, H2. apply Qcle_antisym; assumption.
Qed.

Lemma tuple_leb_true_iff (x y : Qc * Z) :
  tuple_leb x y = true <-> fst x < fst y \/ (fst x = fst y /\ (snd x <= snd y)%Z).
Proof.
  unfold tuple_leb. destruct (fst x ?= fst y) eqn:E.
  - apply Qceq_alt in E. rewrite Z.leb_le. split.
    + intro H. right. split; assumption.
    + intros [H|[_ H]]; [|exact H].
      rewrite E in H. exfalso. exact (Qclt_not_eq _ _ H eq_refl).
  - apply Qclt_alt in E. split; [intros _; left; exact E | reflexivity].
  - apply Qcgt_alt in E. split; [discriminate|].
    intros [H|[H _]].
    + exfalso. unfold Qclt in *. lra.
    + rewrite H in E. exfalso. unfold Qclt in *. lra.
Qed.

Lemma sorted_tagged_perm_eq (l l' : list (Qc * Z)) :
  Permutation l l' -> sorted_tagged l = sorted_tagged l'.
Proof.
  apply sort_by_perm_eq.
  - intros x y. rewrite !tuple_leb_true_iff.
    destruct (Qc_dec (fst x) (fst y)) as [[H|H]|H]; auto.
    destruct (Z.le_ge_cases (snd x) (snd y)); auto.
  - intros x y z. rewrite !tuple_leb_true_iff.
    intros [H1|[H1 K1]] [H2|[H2 K2]].
    + left. eapply Qclt_trans; eassumption.
    + left. rewrite <- H2. exact H1.
    + left. rewrite H1. exact H2.
    + right. split; [congruence | lia].
  - intros [a s] [b u]. rewrite !tuple_leb_true_iff. simpl.
    intros [H1|[H1 K1]] [H2|[H2 K2]].
    + exfalso. unfold Qclt in *. lra.
    + subst. exfalso. exact (Qclt_not_eq _ _ H1 eq_refl).
    + subst. exfalso. exact (Qclt_not_eq _ _ H2 eq_refl).
    + f_equal; [exact H1 | lia].
Qed.

(** ** Sums, minima and maxima are insensitive to the order too *)

Lemma fold_plus_perm (l l' : list Qc) :
  Permutation l l' -> forall acc, fold_left Qcplus l acc = fold_left Qcplus l' acc.
Proof.
  induction 1 as [|x l l' _ IH|x y l|l l' l'' _ IH1 _ IH2]; intro acc; simpl.
  - reflexivity.
  - apply IH.
  - f_equal. ring.
  - rewrite IH1. apply IH2.
Qed.

Lemma sum_perm (l l' : list Qc) : Permutation l l' -> Num.sum l = Num.sum l'.
Proof. intro P. apply fold_plus_perm. exact P. Qed.

Lemma fold_min2_In (rest : list Qc) (x : Qc) : In (fold_left Num.min2 rest x) (x :: rest).
Proof.
  revert x. induction rest as [|a rest IH]; intro x; simpl.
  - left. reflexivity.
  - destruct (IH (Num.min2 x a)) as [E|I].
    + rewrite <- E. unfold Num.min2. destruct (Num.ltb a x); auto.
    + right. right. exact I.
Qed.

Lemma fold_max2_In (rest : list Qc) (x : Qc) : In (fold_left Num.max2 rest x) (x :: rest).
Proof.
  revert x. induction rest as [|a rest IH]; intro x; simpl.
  - left. reflexivity.
  - destruct (IH (Num.max2 x a)) as [E|I].
    + rewrite <- E. unfold Num.max2. destruct (Num.ltb x a); auto.
    + right. right. exact I.
Qed.

Lemma py_min_perm (l l' : list Qc) : Permutation l l' -> py_min l = py_min l'.
Proof.
  intro P. destruct l as [|x rest], l' as [|x' rest'].
  - reflexivity.
  - apply Permutation_nil in P. discriminate P.
  - apply Permutation_sym, Permutation_nil in P. discriminate P.
  - simpl. f_equal. apply Qcle_antisym.
    + apply fold_min2_lower. eapply Permutation_in;
        [apply Permutation_sym; exact P | apply fold_min2_In].
    + apply fold_min2_lower. eapply Permutation_in; [exact P | apply fold_min2_In].
Qed.

Lemma py_max_perm (l l' : list Qc) : Permutation l l' -> py_max l = py_max l'.
Proof.
  intro P. destruct l as [|x rest], l' as [|x' rest'].
  - reflexivity.
  - apply Permutation_nil in P. discriminate P.
  - apply Permutation_sym, Permutation_nil in P. discriminate P.
  - simpl. f_equal. apply Qcle_antisym.
    + apply fold_max2_upper. eapply Permutation_in; [exact P | apply fold_max2_In].
    + apply fold_max2_upper. eapply Permutation_in;
        [apply Permutation_sym; exact P | apply fold_max2_In].
Qed.

(** ** The ten fields of [calculate_stats] on a non-empty sample *)

Lemma calculate_stats_fields (sqrt : Qc -> Qc) (values : list Qc) :
  values <> [] ->
  sqrt (Num.of_nat (List.length values)) <> 0 ->
  let n := List.length values in
  let mean := Num.sum values / Num.of_nat n in
  exists median stdev min_val max_val : Qc,
    statistics_median values = Return median
    /\ py_min values = Return min_val
    /\ py_max values = Return max_val
    /\ ((n <= 1)%nat -> stdev = 0)
    /\ ((1 < n)%nat -> exists v, statistics_variance values = Return v /\ stdev = sqrt v)
    /\ calculate_stats sqrt values
       = Return [mean; median; stdev; min_val; max_val;
                 nth (percentile_position (Num.lit 90 100) n) (sorted values) 0;
                 nth (percentile_position (Num.lit 95 100) n) (sorted values) 0;
                 nth (percentile_position (Num.lit 99 100) n) (sorted values) 0;
                 mean - Num.lit 196 100 * (stdev / sqrt (Num.of_nat n));
                 mean + Num.lit 196 100 * (stdev / sqrt (Num.of_nat n))].
Proof.
  intros Hne Hroot n mean.
  destruct lit_order as (L0 & L1 & L2 & L3).
  assert (L95 : 0 <= Num.lit 95 100) by (eapply Qcle_trans; eassumption).
  assert (L99 : 0 <= Num.lit 99 100) by (eapply Qcle_trans; eassumption).
  assert (U95 : Num.lit 95 100 <= 1) by (eapply Qcle_trans; eassumption).
  assert (U90 : Num.lit 90 100 <= 1) by (eapply Qcle_trans; eassumption).
  assert (Hn : (0 < n)%nat)
    by (unfold n; destruct values; simpl; [congruence | lia]).
  destruct (statistics_median_total values Hne) as (median & Hmed).
  assert (Hsd : exists stdev variance,
             ((n <= 1)%nat -> stdev = 0) /\
             ((1 < n)%nat -> exists v, statistics_variance values = Return v
                                       /\ stdev = sqrt v) /\
             (if (1 <? n)%nat
              then s <- statistics_stdev sqrt values ;;
                   v <- statistics_variance values ;; Return (s, v)
              else Return (0, 0)) = Return (stdev, variance)).
  { destruct (Nat.ltb_spec 1 n) as [H1|H1].
    - destruct (statistics_variance_total values) as (v & Hv); [unfold n in H1; lia|].
      unfold statistics_stdev. rewrite Hv. cbn [bind].
      exists (sqrt v), v. split; [lia|]. split; [|reflexivity].
      intros _. exists v. split; reflexivity.
    - exists 0, 0. split; [reflexivity|]. split; [lia | reflexivity]. }
  destruct Hsd as (stdev & variance & Hz & Hv1 & Hsd).
  destruct values as [|x rest]; [congruence|].
  exists median, stdev, (fold_left Num.min2 rest x), (fold_left Num.max2 rest x).
  split; [exact Hmed|]. split; [reflexivity|]. split; [reflexivity|].
  split; [exact Hz|]. split; [exact Hv1|].
  unfold calculate_stats.
  rewrite statistics_mean_total by exact Hne. cbn [bind].
  rewrite Hmed. cbn [bind]. fold n. rewrite Hsd. cbn [py_min py_max bind].
  unfold n. rewrite !percentile_value by assumption. cbn [bind]. fold n.
  replace (0 <? n)%nat with true by (symmetry; apply Nat.ltb_lt; exact Hn).
  rewrite math_sqrt_nonneg by apply of_nat_nonneg. cbn [bind].
  rewrite (py_div_nonzero _ _ Hroot). cbn [bind]. reflexivity.
Qed.

Lemma of_nat_S (n : nat) : Num.of_nat (S n) = Num.of_nat n + 1.
Proof.
  apply Qc_is_canon. unfold Num.of_nat. rewrite this_of_Z.
  change (this (Num.of_Z (Z.of_nat n) + 1))
    with (Qred (this (Num.of_Z (Z.of_nat n)) + this 1)).
  rewrite Qred_correct, this_of_Z, Nat2Z.inj_succ. unfold Z.succ.
  rewrite inject_Z_plus. reflexivity.
Qed.

Lemma Qc_le_by_diff (p q : Qc) : 0 <= q - p -> p <= q.
Proof. intro H. apply Qcle_minus_iff. exact H. Qed.

Lemma Qc_diff_of_le (p q : Qc) : p <= q -> 0 <= q - p.
Proof. intro H. apply Qcle_minus_iff in H. exact H. Qed.

Lemma fold_plus_lower (l : list Qc) (lo acc : Qc) :
  (forall y, In y l -> lo <= y) ->
  0 <= fold_left Qcplus l acc - (acc + Num.of_nat (List.length l) * lo).
Proof.
  revert acc. induction l as [|x l IH]; intros acc H.
  - simpl. replace (acc - (acc + Num.of_nat 0 * lo)) with 0
      by (change (Num.of_nat 0) with 0; ring).
    apply Qcle_refl.
  - cbn [fold_left List.length]. rewrite of_nat_S.
    replace (fold_left Qcplus l (acc + x) - (acc + (Num.of_nat (List.length l) + 1) * lo))
      with ((fold_left Qcplus l (acc + x)
             - ((acc + x) + Num.of_nat (List.length l) * lo)) + (x - lo)) by ring.
    apply Qc_plus_nonneg.
    + apply IH. intros y Hy. apply H. right. exact Hy.
    + apply Qc_diff_of_le. apply H. left. reflexivity.
Qed.

Lemma fold_plus_upper (l : list Qc) (hi acc : Qc) :
  (forall y, In y l -> y <= hi) ->
  0 <= (acc + Num.of_nat (List.length l) * hi) - fold_left Qcplus l acc.
Proof.
  revert acc. induction l as [|x l IH]; intros acc H.
  - simpl. replace (acc + Num.of_nat 0 * hi - acc) with 0
      by (change (Num.of_nat 0) with 0; ring).
    apply Qcle_refl.
  - cbn [fold_left List.length]. rewrite of_nat_S.
    replace (acc + (Num.of_nat (List.length l) + 1) * hi - fold_left Qcplus l (acc + x))
      with (((acc + x) + Num.of_nat (List.length l) * hi
             - fold_left Qcplus l (acc + x)) + (hi - x)) by ring.
    apply Qc_plus_nonneg.
    + apply IH. intros y Hy. apply H. right. exact Hy.
    + apply Qc_diff_of_le. apply H. left. reflexivity.
Qed.

Lemma mean_between (values : list Qc) (lo hi : Qc) :
  values <> [] ->
  (forall y, In y values -> lo <= y /\ y <= hi) ->
  lo <= Num.sum values / Num.of_nat (List.length values)
  /\ Num.sum values / Num.of_nat (List.length values) <= hi.
Proof.
  intros Hne H.
  assert (Hn : 0 < Num.of_nat (List.length values))
    by (apply of_nat_pos; destruct values; simpl; [congruence | lia]).
  pose proof (Qc_pos_nonzero _ Hn) as Hnz.
  split; apply Qc_le_by_diff.
  - replace (Num.sum values / Num.of_nat (List.length values) - lo)
      with ((Num.sum values - (0 + Num.of_nat (List.length values) * lo))
            / Num.of_nat (List.length values)) by (field; exact Hnz).
    apply Qc_div_nonneg; [|exact Hn].
    apply fold_plus_lower. intros y Hy. apply H. exact Hy.
  - replace (hi - Num.sum values / Num.of_nat (List.length values))
      with (((0 + Num.of_nat (List.length values) * hi) - Num.sum values)
            / Num.of_nat (List.length values)) by (field; exact Hnz).
    apply Qc_div_nonneg; [|exact Hn].
    apply fold_plus_upper. intros y Hy. apply H. exact Hy.
Qed.

Lemma lit_two_nonzero : Num.lit 2 1 <> 0.
Proof. apply Qc_pos_nonzero, lit_two_pos. Qed.

Lemma half_sum_between (a b lo hi : Qc) :
  lo <= a /\ a <= hi -> lo <= b /\ b <= hi ->
  lo <= (a + b) / Num.lit 2 1 /\ (a + b) / Num.lit 2 1 <= hi.
Proof.
  intros [A1 A2] [B1 B2]. split; apply Qc_le_by_diff.
  - replace ((a + b) / Num.lit 2 1 - lo) with (((a - lo) + (b - lo)) / Num.lit 2 1)
      by (rewrite lit_two; field; intro K; apply (f_equal this) in K; discriminate K).
    apply Qc_div_nonneg; [|apply lit_two_pos].
    apply Qc_plus_nonneg; apply Qc_diff_of_le; assumption.
  - replace (hi - (a + b) / Num.lit 2 1) with (((hi - a) + (hi - b)) / Num.lit 2 1)
      by (rewrite lit_two; field; intro K; apply (f_equal this) in K; discriminate K).
    apply Qc_div_nonneg; [|apply lit_two_pos].
    apply Qc_plus_nonneg; apply Qc_diff_of_le; assumption.
Qed.

Lemma statistics_median_between (values : list Qc) (lo hi m : Qc) :
  (forall y, In y values -> lo <= y /\ y <= hi) ->
  statistics_median values = Return m ->
  lo <= m /\ m <= hi.
Proof.
  intros H. unfold statistics_median. cbv zeta. rewrite sorted_length.
  destruct (Nat.eqb_spec (List.length values) 0) as [E|Hn]; [discriminate|].
  assert (Hhalf : (List.length values / 2 < List.length values)%nat)
    by (apply Nat.div_lt; lia).
  assert (Hin : forall k, (k < List.length values)%nat ->
                          lo <= nth k (sorted values) 0 /\ nth k (sorted values) 0 <= hi).
  { intros k Hk. apply H. apply sorted_In. apply nth_In. rewrite sorted_length. exact Hk. }
  destruct (Nat.odd (List.length values)) eqn:Hodd.
  - rewrite (py_index_nat _ _ 0) by (rewrite sorted_length; exact Hhalf).
    intro E. injection E as <-. apply Hin. exact Hhalf.
  - assert (H2 : (2 <= List.length values)%nat).
    { destruct (List.length values) as [|[|k]]; [lia | discriminate Hodd | lia]. }
    assert (Hi : (1 <= List.length values / 2)%nat)
      by (apply Nat.div_le_lower_bound; lia).
    replace (Z.of_nat (List.length values / 2) - 1)%Z
      with (Z.of_nat (List.length values / 2 - 1)) by lia.
    rewrite !(py_index_nat _ _ 0) by (rewrite sorted_length; lia).
    cbn [bind]. intro E. injection E as <-.
    apply half_sum_between; apply Hin;
      change (fst (Nat.divmod (List.length values) 1 0 1))
        with (List.length values / 2)%nat; lia.
Qed.

(** On a non-empty sample the min and max fields of [calculate_stats] are
    values of the sample that bound every value of it, and the mean and the
    median fields lie between them. *)
Theorem calculate_stats_center_within_extrema (sqrt : Qc -> Qc) (values : list Qc) :
  values <> [] ->
  sqrt (Num.of_nat (List.length values)) <> 0 ->
  exists mean median stdev min_val max_val p90 p95 p99 ci_lower ci_upper : Qc,
    calculate_stats sqrt values
    = Return [mean; median; stdev; min_val; max_val; p90; p95; p99; ci_lower; ci_upper]
    /\ In min_val values /\ In max_val values
    /\ (forall y, In y values -> min_val <= y /\ y <= max_val)
    /\ (min_val <= mean /\ mean <= max_val)
    /\ (min_val <= median /\ median <= max_val).
Proof.
  intros Hne Hroot.
  destruct (calculate_stats_fields sqrt values Hne Hroot)
    as (median & stdev & min_val & max_val & Hmed & Hmin & Hmax & _ & _ & Hres).
  do 10 eexists. split; [exact Hres|].
  assert (Hb : forall y, In y values -> min_val <= y /\ y <= max_val).
  { destruct values as [|x rest]; [congruence|].
    simpl in Hmin, Hmax. injection Hmin as <-. injection Hmax as <-.
    intros y Hy. split; [apply fold_min2_lower | apply fold_max2_upper]; exact Hy. }
  assert (Hi : In min_val values /\ In max_val values).
  { destruct values as [|x rest]; [congruence|].
    simpl in Hmin, Hmax. injection Hmin as <-. injection Hmax as <-.
    split; [apply fold_min2_In | apply fold_max2_In]. }
  destruct Hi as [I1 I2].
  split; [exact I1|]. split; [exact I2|]. split; [exact Hb|].
  split; [apply mean_between; assumption|].
  eapply statistics_median_between; eassumption.
Qed.

Lemma calculate_stats_center_within_extrema_witness :
  let values := [Num.lit 4 1; Num.lit 1 1; Num.lit 3 1; Num.lit 1 1] in
  (values <> [] /\ heron_sqrt (Num.of_nat (List.length values)) <> 0)
  /\ exists mean median stdev min_val max_val p90 p95 p99 ci_lower ci_upper : Qc,
       calculate_stats heron_sqrt values
       = Return [mean; median; stdev; min_val; max_val; p90; p95; p99;
                 ci_lower; ci_upper]
       /\ In min_val values /\ In max_val values
       /\ (forall y, In y values -> min_val <= y /\ y <= max_val)
       /\ (min_val <= mean /\ mean <= max_val)
       /\ (min_val <= median /\ median <= max_val).
Proof.
  intro values.
  assert (Hne : values <> []) by (unfold values; discriminate).
  assert (Hroot : heron_sqrt (Num.of_nat (List.length values)) <> 0)
    by (apply eqb_false_iff; vm_compute; reflexivity).
  split; [split; assumption|].
  exact (calculate_stats_center_within_extrema heron_sqrt values Hne Hroot).
Defined.



(** A sample of one value x: stdev is 0 and every other field is x. *)
Theorem calculate_stats_singleton (sqrt : Qc -> Qc) (x : Qc) :
  sqrt 1 <> 0 ->
  calculate_stats sqrt [x] = Return [x; x; 0; x; x; x; x; x; x; x].
Proof.
  intro Hroot.
  assert (Hne : [x] <> []) by discriminate.
  destruct (calculate_stats_fields sqrt [x] Hne Hroot)
    as (median & stdev & min_val & max_val & Hmed & Hmin & Hmax & Hz & _ & Hres).
  rewrite Hres. clear Hres.
  assert (E : stdev = 0) by (apply Hz; simpl; lia). subst stdev.
  vm_compute in Hmed. injection Hmed as <-.
  simpl in Hmin, Hmax. injection Hmin as <-. injection Hmax as <-.
  replace (percentile_position (Num.lit 90 100) (List.length [x])) with 0%nat
    by (vm_compute; reflexivity).
  replace (percentile_position (Num.lit 95 100) (List.length [x])) with 0%nat
    by (vm_compute; reflexivity).
  replace (percentile_position (Num.lit 99 100) (List.length [x])) with 0%nat
    by (vm_compute; reflexivity).
  change (sorted [x]) with [x]. cbn [nth List.length].
  change (Num.of_nat 1) with 1. unfold Num.sum. cbn [fold_left].
  replace ((0 + x) / 1) with x by (field; apply Q_apart_0_1).
  replace (x - Num.lit 196 100 * (0 / sqrt 1)) with x by (unfold Qcdiv; ring).
  replace (x + Num.lit 196 100 * (0 / sqrt 1)) with x by (unfold Qcdiv; ring).
  reflexivity.
Qed.

Lemma calculate_stats_singleton_witness :
  heron_sqrt 1 <> 0
  /\ calculate_stats heron_sqrt [Num.lit 7 1]
     = Return [Num.lit 7 1; Num.lit 7 1; 0; Num.lit 7 1; Num.lit 7 1; Num.lit 7 1;
               Num.lit 7 1; Num.lit 7 1; Num.lit 7 1; Num.lit 7 1].
Proof.
  assert (Hroot : heron_sqrt 1 <> 0) by (apply eqb_false_iff; vm_compute; reflexivity).
  split; [exact Hroot|].
  exact (calculate_stats_singleton heron_sqrt (Num.lit 7 1) Hroot).
Defined.

(** ** The order of the measurements in a sample does not matter *)

Lemma statistics_mean_perm (l l' : list Qc) :
  Permutation l l' -> statistics_mean l = statistics_mean l'.
Proof.
  intro P. destruct l as [|x rest], l' as [|x' rest'].
  - reflexivity.
  - apply Permutation_nil in P. discriminate P.
  - apply Permutation_sym, Permutation_nil in P. discriminate P.
  - unfold statistics_mean.
    rewrite (sum_perm _ _ P), (Permutation_length P). reflexivity.
Qed.

Lemma statistics_median_perm (l l' : list Qc) :
  Permutation l l' -> statistics_median l = statistics_median l'.
Proof.
  intro P. unfold statistics_median. rewrite (sorted_perm_eq _ _ P). reflexivity.
Qed.

Lemma statistics_variance_perm (l l' : list Qc) :
  Permutation l l' -> statistics_variance l = statistics_variance l'.
Proof.
  intro P. unfold statistics_variance.
  rewrite (Permutation_length P), (sum_perm _ _ P).
  destruct (List.length l' <? 2)%nat; [reflexivity|].
  cbv zeta. f_equal. f_equal. apply sum_perm. apply Permutation_map. exact P.
Qed.

Lemma statistics_stdev_perm (sqrt : Qc -> Qc) (l l' : list Qc) :
  Permutation l l' -> statistics_stdev sqrt l = statistics_stdev sqrt l'.
Proof.
  intro P. unfold statistics_stdev. rewrite (statistics_variance_perm _ _ P).
  reflexivity.
Qed.

(** [calculate_stats] returns the same ten fields for any rearrangement of
    the sample. *)
Theorem calculate_stats_permutation (sqrt : Qc -> Qc) (l l' : list Qc) :
  Permutation l l' -> calculate_stats sqrt l = calculate_stats sqrt l'.
Proof.
  intro P. destruct l as [|x rest], l' as [|x' rest'].
  - reflexivity.
  - apply Permutation_nil in P. discriminate P.
  - apply Permutation_sym, Permutation_nil in P. discriminate P.
  - unfold calculate_stats.
    rewrite (statistics_mean_perm _ _ P), (statistics_median_perm _ _ P),
      (statistics_stdev_perm sqrt _ _ P), (statistics_variance_perm _ _ P),
      (py_min_perm _ _ P), (py_max_perm _ _ P), (sorted_perm_eq _ _ P),
      (Permutation_length P).
    reflexivity.
Qed.

Lemma calculate_stats_permutation_witness :
  let l := [Num.lit 3 1; Num.lit 1 1; Num.lit 2 1] in
  let l' := [Num.lit 1 1; Num.lit 3 1; Num.lit 2 1] in
  Permutation l l' /\ calculate_stats heron_sqrt l = calculate_stats heron_sqrt l'.
Proof.
  intros l l'.
  assert (P : Permutation l l') by (unfold l, l'; apply perm_swap).
  split; [exact P | exact (calculate_stats_permutation heron_sqrt l l' P)].
Defined.

Lemma check_normality_perm (sqrt : Qc -> Qc) (l l' : list Qc) :
  Permutation l l' -> check_normality sqrt l = check_normality sqrt l'.
Proof.
  intro P. unfold check_normality.
  rewrite (Permutation_length P), (statistics_mean_perm _ _ P),
    (statistics_stdev_perm sqrt _ _ P).
  destruct (List.length l' <? 20)%nat; [reflexivity|].
  destruct (statistics_mean l') as [mean| |]; try reflexivity.
  destruct (statistics_stdev sqrt l') as [stdev| |]; try reflexivity.
  cbn [bind]. destruct (Num.eqb stdev 0) eqn:E; [reflexivity|].
  apply eqb_false_iff in E. rewrite !(map_outcome_div _ _ _ E). cbn [bind].
  assert (S3 : Num.sum (map (fun z => z ^ 3) (map (fun x => (x - mean) / stdev) l))
               = Num.sum (map (fun z => z ^ 3) (map (fun x => (x - mean) / stdev) l')))
    by (apply sum_perm; do 2 apply Permutation_map; exact P).
  assert (S4 : Num.sum (map (fun z => z ^ 4) (map (fun x => (x - mean) / stdev) l))
               = Num.sum (map (fun z => z ^ 4) (map (fun x => (x - mean) / stdev) l')))
    by (apply sum_perm; do 2 apply Permutation_map; exact P).
  rewrite S3, S4. reflexivity.
Qed.



Lemma welchs_permutation (sqrt : Qc -> Qc) (v1 v1' v2 v2' : list Qc) :
  Permutation v1 v1' -> Permutation v2 v2' ->
  welchs_t_test sqrt v1 v2 = welchs_t_test sqrt v1' v2'.
Proof.
  intros P1 P2. unfold welchs_t_test.
  rewrite (Permutation_length P1), (Permutation_length P2),
    (statistics_mean_perm _ _ P1), (statistics_mean_perm _ _ P2),
    (statistics_variance_perm _ _ P1), (statistics_variance_perm _ _ P2).
  reflexivity.
Qed.

Lemma combine_tagged_perm (v1 v1' v2 v2' : list Qc) :
  Permutation v1 v1' -> Permutation v2 v2' ->
  combine_tagged v1 v2 = combine_tagged v1' v2'.
Proof.
  intros P1 P2. unfold combine_tagged. apply sorted_tagged_perm_eq.
  apply Permutation_app; apply Permutation_map; assumption.
Qed.

Lemma mann_whitney_permutation (sqrt : Qc -> Qc) (v1 v1' v2 v2' : list Qc) :
  Permutation v1 v1' -> Permutation v2 v2' ->
  mann_whitney_u_test sqrt v1 v2 = mann_whitney_u_test sqrt v1' v2'.
Proof.
  intros P1 P2. unfold mann_whitney_u_test.
  rewrite (Permutation_length P1), (Permutation_length P2),
    (combine_tagged_perm _ _ _ _ P1 P2).
  reflexivity.
Qed.

(** The orchestrator prints the same line (or fails the same way) however
    the measurements inside each of the two samples are ordered: the choice
    of test, the statistic, the p-value and the effect size depend on each
    sample only as a multiset. *)
Theorem hypothesis_test_permutation (sqrt : Qc -> Qc) (v1 v1' v2 v2' : list Qc) :
  Permutation v1 v1' -> Permutation v2 v2' ->
  hypothesis_test sqrt v1 v2 = hypothesis_test sqrt v1' v2'
  /\ main_hypothesis_test sqrt v1 v2 = main_hypothesis_test sqrt v1' v2'.
Proof.
  intros P1 P2.
  assert (E : hypothesis_test sqrt v1 v2 = hypothesis_test sqrt v1' v2').
  { unfold hypothesis_test.
    rewrite (check_normality_perm sqrt _ _ P1),
      (check_normality_perm sqrt _ _ P2),
      (welchs_permutation sqrt _ _ _ _ P1 P2),
      (mann_whitney_permutation sqrt _ _ _ _ P1 P2),
      (statistics_mean_perm _ _ P1), (statistics_mean_perm _ _ P2),
      (statistics_variance_perm _ _ P1), (statistics_variance_perm _ _ P2),
      (Permutation_length P1), (Permutation_length P2).
    reflexivity. }
  split; [exact E|]. unfold main_hypothesis_test. rewrite E. reflexivity.
Qed.

Lemma hypothesis_test_permutation_witness :
  let v1 := [Num.lit 3 1; Num.lit 1 1; Num.lit 2 1] in
  let v1' := [Num.lit 1 1; Num.lit 3 1; Num.lit 2 1] in
  let v2 := [Num.lit 5 1; Num.lit 4 1; Num.lit 6 1] in
  (Permutation v1 v1' /\ Permutation v2 v2)
  /\ (hypothesis_test heron_sqrt v1 v2 = hypothesis_test heron_sqrt v1' v2
      /\ main_hypothesis_test heron_sqrt v1 v2 = main_hypothesis_test heron_sqrt v1' v2).
Proof.
  intros v1 v1' v2.
  assert (P1 : Permutation v1 v1') by (unfold v1, v1'; apply perm_swap).
  assert (P2 : Permutation v2 v2) by apply Permutation_refl.
  split; [split; assumption|].
  exact (hypothesis_test_permutation heron_sqrt v1 v1' v2 v2 P1 P2).
Defined.

(** ** Welch's t-test never raises, and swapping the samples negates t *)

(** Whatever the two samples and whatever the square root, [welchs_t_test]
    returns without raising: the 4-tuple of the size guard exactly when a
    sample has fewer than 2 values, and otherwise the 4-tuple of the
    zero-variance guard or a 3-tuple with status success. *)
Theorem welchs_t_test_never_raises (sqrt : Qc -> Qc) (v1 v2 : list Qc) :
  exists r, welchs_t_test sqrt v1 v2 = Return r
    /\ (((List.length v1 < 2)%nat \/ (List.length v2 < 2)%nat)
        /\ r = Tuple4 0 0 0 "insufficient_data"
        \/ ((2 <= List.length v1)%nat /\ (2 <= List.length v2)%nat)
           /\ (r = Tuple4 0 0 (Num.lit 999 1) "zero_variance"
               \/ exists t df, r = Tuple3 t df "success")).
Proof.
  destruct (Nat.ltb_spec (List.length v1) 2) as [H1|H1].
  { eexists. split; [apply welchs_insufficient_general; left; exact H1|].
    left. split; [left; exact H1 | reflexivity]. }
  destruct (Nat.ltb_spec (List.length v2) 2) as [H2|H2].
  { eexists. split; [apply welchs_insufficient_general; right; exact H2|].
    left. split; [right; exact H2 | reflexivity]. }
  destruct (statistics_variance_total v1 H1) as (s1 & E1).
  destruct (statistics_variance_total v2 H2) as (s2 & E2).
  rewrite (welchs_prefix sqrt v1 v2 s1 s2 H1 H2 E1 E2). cbv zeta.
  match goal with |- context [Num.eqb ?s 0] => destruct (Num.eqb s 0) eqn:E end.
  - eexists. split; [reflexivity|]. right. split; [split; assumption|].
    left. reflexivity.
  - apply eqb_false_iff in E. rewrite (py_div_nonzero _ _ E). cbn [bind].
    rewrite !py_div_nonzero
      by (apply Qc_pos_nonzero; apply of_nat_pred_pos; assumption).
    cbn [bind].
    match goal with |- context [Num.ltb 0 ?d] => destruct (Num.ltb 0 d) eqn:D end.
    + apply ltb_true_iff in D. rewrite (py_div_nonzero _ _ (Qc_pos_nonzero _ D)).
      cbn [bind]. eexists. split; [reflexivity|]. right.
      split; [split; assumption|]. right. eauto.
    + cbn [bind]. eexists. split; [reflexivity|]. right.
      split; [split; assumption|]. right. eauto.
Qed.

(** When the test succeeds on (v1, v2) it succeeds on (v2, v1) with the
    opposite t statistic and the same degrees of freedom. *)
Theorem welchs_t_test_swap (sqrt : Qc -> Qc) (v1 v2 : list Qc) (t df : Qc) :
  welchs_t_test sqrt v1 v2 = Return (Tuple3 t df "success") ->
  welchs_t_test sqrt v2 v1 = Return (Tuple3 (- t) df "success").
Proof.
  intro H.
  destruct (Nat.ltb_spec (List.length v1) 2) as [H1|H1].
  { rewrite welchs_insufficient_general in H by (left; exact H1). discriminate H. }
  destruct (Nat.ltb_spec (List.length v2) 2) as [H2|H2].
  { rewrite welchs_insufficient_general in H by (right; exact H2). discriminate H. }
  destruct (statistics_variance_total v1 H1) as (s1 & E1).
  destruct (statistics_variance_total v2 H2) as (s2 & E2).
  rewrite (welchs_prefix sqrt v1 v2 s1 s2 H1 H2 E1 E2) in H.
  rewrite (welchs_prefix sqrt v2 v1 s2 s1 H2 H1 E2 E1).
  cbv zeta in *.
  set (n1 := Num.of_nat (List.length v1)) in *.
  set (n2 := Num.of_nat (List.length v2)) in *.
  rewrite (Qcplus_comm (s2 / n2) (s1 / n1)).
  set (se := sqrt (s1 / n1 + s2 / n2)) in *.
  destruct (Num.eqb se 0) eqn:E; [discriminate H|].
  apply eqb_false_iff in E.
  assert (N1 : n1 - 1 <> 0) by (apply Qc_pos_nonzero, of_nat_pred_pos; exact H1).
  assert (N2 : n2 - 1 <> 0) by (apply Qc_pos_nonzero, of_nat_pred_pos; exact H2).
  rewrite (py_div_nonzero _ _ E), (py_div_nonzero _ _ N1), (py_div_nonzero _ _ N2) in H.
  rewrite (py_div_nonzero _ _ E), (py_div_nonzero _ _ N1), (py_div_nonzero _ _ N2).
  cbn [bind] in *.
  rewrite (Qcplus_comm ((s2 / n2) ^ 2 / (n2 - 1)) ((s1 / n1) ^ 2 / (n1 - 1))).
  destruct (if Num.ltb 0 ((s1 / n1) ^ 2 / (n1 - 1) + (s2 / n2) ^ 2 / (n2 - 1))
            then py_div ((s1 / n1 + s2 / n2) ^ 2)
                   ((s1 / n1) ^ 2 / (n1 - 1) + (s2 / n2) ^ 2 / (n2 - 1))
            else Return (Num.lit 30 1)) as [df0| |];
    cbn [bind] in *; try discriminate H.
  injection H as Ht Hdf. subst df0. rewrite <- Ht.
  do 2 f_equal. unfold Qcdiv. ring.
Qed.

Lemma welchs_t_test_swap_witness :
  let v1 := [Num.lit 1 1; Num.lit 2 1; Num.lit 4 1] in
  let v2 := [Num.lit 5 1; Num.lit 9 1] in
  exists t df,
    welchs_t_test heron_sqrt v1 v2 = Return (Tuple3 t df "success")
    /\ welchs_t_test heron_sqrt v2 v1 = Return (Tuple3 (- t) df "success").
Proof.
  intros v1 v2.
  destruct (welchs_t_test heron_sqrt v1 v2) as [[t df status|a b c status]| |] eqn:E;
    try (vm_compute in E; discriminate E).
  assert (S : status = "success"%string).
  { vm_compute in E. injection E as _ _ S. symmetry. exact S. }
  subst status.
  exists t, df. split; [reflexivity|].
  exact (welchs_t_test_swap heron_sqrt v1 v2 t df E).
Defined.

(** ** Mann-Whitney: the size of U, the sign of the effect, the status *)

Lemma Qc_mult_pos (a b : Qc) : 0 < a -> 0 < b -> 0 < a * b.
Proof.
  intros Ha Hb. rewrite <- (Qcmult_0_l b). apply Qcmult_lt_compat_r; assumption.
Qed.

Lemma one_pos : 0 < 1.
Proof. unfold Qclt. vm_compute. reflexivity. Qed.

Lemma two_nonzero : 1 + 1 <> 0.
Proof. apply Qc_pos_nonzero. apply Qc_plus_pos; apply one_pos. Qed.

Lemma min2_half (a s : Qc) : Num.min2 a (s - a) <= s / Num.lit 2 1.
Proof.
  apply Qc_le_by_diff.
  replace (s / Num.lit 2 1 - Num.min2 a (s - a))
    with (((a - Num.min2 a (s - a)) + ((s - a) - Num.min2 a (s - a))) / Num.lit 2 1)
    by (rewrite lit_two; field; apply two_nonzero).
  apply Qc_div_nonneg; [|apply lit_two_pos].
  apply Qc_plus_nonneg; apply Qc_diff_of_le; [apply min2_le_l | apply min2_le_r].
Qed.

Lemma rank_biserial_nonneg (u p : Qc) :
  0 < p -> u <= p / Num.lit 2 1 -> 0 <= 1 - (Num.lit 2 1 * u) / p.
Proof.
  intros Hp Hu.
  replace (1 - (Num.lit 2 1 * u) / p)
    with ((Num.lit 2 1 * (p / Num.lit 2 1 - u)) / p)
    by (rewrite lit_two; field; split; [apply Qc_pos_nonzero; exact Hp | apply two_nonzero]).
  apply Qc_div_nonneg; [|exact Hp].
  apply Qc_mult_nonneg; [apply Qclt_le_weak, lit_two_pos | apply Qc_diff_of_le; exact Hu].
Qed.

Lemma of_nat_product_pos (n1 n2 : nat) :
  (0 < n1)%nat -> (0 < n2)%nat -> 0 < Num.of_nat n1 * Num.of_nat n2.
Proof. intros H1 H2. apply Qc_mult_pos; apply of_nat_pos; assumption. Qed.

(** For two non-empty samples the U statistic that [mann_whitney_u_test]
    returns is at most n1 n2 / 2, so the rank-biserial effect size computed
    from it, 1 - 2U/(n1 n2), is never negative: the direction of the
    difference is not reported. *)
Theorem mann_whitney_effect_nonnegative (sqrt : Qc -> Qc) (v1 v2 : list Qc) :
  v1 <> [] -> v2 <> [] ->
  exists u z status effect,
    mann_whitney_u_test sqrt v1 v2 = Return (u, z, status)
    /\ u <= (Num.of_nat (List.length v1) * Num.of_nat (List.length v2)) / Num.lit 2 1
    /\ calculate_rank_biserial u (List.length v1) (List.length v2) = Return effect
    /\ 0 <= effect.
Proof.
  intros N1 N2.
  assert (L1 : (0 < List.length v1)%nat) by (destruct v1; simpl; [congruence | lia]).
  assert (L2 : (0 < List.length v2)%nat) by (destruct v2; simpl; [congruence | lia]).
  pose proof (of_nat_product_pos _ _ L1 L2) as Hp.
  assert (K : exists u z status,
             mann_whitney_u_test sqrt v1 v2 = Return (u, z, status)
             /\ u <= (Num.of_nat (List.length v1) * Num.of_nat (List.length v2))
                     / Num.lit 2 1).
  { unfold mann_whitney_u_test.
    destruct ((List.length v1 <? 3)%nat || (List.length v2 <? 3)%nat).
    - do 3 eexists. split; [reflexivity|].
      apply Qc_div_nonneg; [apply Qclt_le_weak; exact Hp | apply lit_two_pos].
    - cbv zeta. rewrite rank_scan_loop_total by lia. cbn [bind].
      destruct (rank_sum_loop_total (combine_tagged v1 v2)
                  (S (List.length (combine_tagged v1 v2))) 0 0) as (r & Hr); try lia.
      rewrite Hr. cbn [bind].
      rewrite math_sqrt_nonneg by apply sigma_radicand_nonneg. cbn [bind].
      match goal with |- context [Num.eqb ?s 0] => destruct (Num.eqb s 0) eqn:E end.
      + do 3 eexists. split; [reflexivity|]. unfold mw_u2. apply min2_half.
      + apply eqb_false_iff in E. rewrite (py_div_nonzero _ _ E). cbn [bind].
        do 3 eexists. split; [reflexivity|]. unfold mw_u2. apply min2_half. }
  destruct K as (u & z & status & M & Hu).
  exists u, z, status. eexists. split; [exact M|]. split; [exact Hu|].
  rewrite calculate_rank_biserial_total by assumption.
  split; [reflexivity|]. apply rank_biserial_nonneg; assumption.
Qed.

Lemma mann_whitney_effect_nonnegative_witness :
  let v1 := [Num.lit 9 1; Num.lit 8 1; Num.lit 7 1] in
  let v2 := [Num.lit 1 1; Num.lit 2 1; Num.lit 8 1] in
  (v1 <> [] /\ v2 <> [])
  /\ exists u z status effect,
       mann_whitney_u_test heron_sqrt v1 v2 = Return (u, z, status)
       /\ u <= (Num.of_nat (List.length v1) * Num.of_nat (List.length v2)) / Num.lit 2 1
       /\ calculate_rank_biserial u (List.length v1) (List.length v2) = Return effect
       /\ 0 <= effect.
Proof.
  intros v1 v2.
  assert (N1 : v1 <> []) by (unfold v1; discriminate).
  assert (N2 : v2 <> []) by (unfold v2; discriminate).
  split; [split; assumption|].
  exact (mann_whitney_effect_nonnegative heron_sqrt v1 v2 N1 N2).
Defined.

(** With at least 3 values in each sample, and a square root that is not 0
    above 0, [mann_whitney_u_test] always ends with status success: its
    zero_variance return cannot be reached, and the z score is
    (U - n1 n2 / 2) / sqrt(n1 n2 (n1 + n2 + 1) / 12). *)
Theorem mann_whitney_status_success (sqrt : Qc -> Qc) (v1 v2 : list Qc) :
  (forall x, 0 < x -> sqrt x <> 0) ->
  (3 <= List.length v1)%nat -> (3 <= List.length v2)%nat ->
  let n1 := Num.of_nat (List.length v1) in
  let n2 := Num.of_nat (List.length v2) in
  exists u,
    mann_whitney_u_test sqrt v1 v2
    = Return (u,
              (u - (n1 * n2) / Num.lit 2 1)
              / sqrt ((n1 * n2 * (n1 + n2 + 1)) / Num.lit 12 1),
              "success"%string).
Proof.
  intros Hpos H1 H2 n1 n2. unfold mann_whitney_u_test.
  replace ((List.length v1 <? 3)%nat || (List.length v2 <? 3)%nat) with false.
  2:{ symmetry. apply orb_false_iff. split; apply Nat.ltb_ge; assumption. }
  cbv zeta. rewrite rank_scan_loop_total by lia. cbn [bind].
  destruct (rank_sum_loop_total (combine_tagged v1 v2)
              (S (List.length (combine_tagged v1 v2))) 0 0) as (r & Hr); try lia.
  rewrite Hr. cbn [bind].
  rewrite math_sqrt_nonneg by apply sigma_radicand_nonneg. cbn [bind].
  fold n1 n2.
  assert (P1 : 0 < n1) by (apply of_nat_pos; lia).
  assert (P2 : 0 < n2) by (apply of_nat_pos; lia).
  assert (Hs : sqrt ((n1 * n2 * (n1 + n2 + 1)) / Num.lit 12 1) <> 0).
  { apply Hpos. apply Qc_div_pos; [|unfold Qclt; vm_compute; reflexivity].
    apply Qc_mult_pos; [apply Qc_mult_pos; assumption|].
    apply Qc_plus_pos; [apply Qc_plus_pos; assumption | apply one_pos]. }
  replace (Num.eqb (sqrt ((n1 * n2 * (n1 + n2 + 1)) / Num.lit 12 1)) 0) with false
    by (symmetry; apply eqb_false_iff; exact Hs).
  rewrite (py_div_nonzero _ _ Hs). cbn [bind].
  eexists. reflexivity.
Qed.

Lemma mann_whitney_status_success_witness :
  let v1 := [Num.lit 9 1; Num.lit 8 1; Num.lit 7 1] in
  let v2 := [Num.lit 1 1; Num.lit 2 1; Num.lit 8 1] in
  ((forall x, 0 < x -> heron_sqrt x <> 0)
   /\ (3 <= List.length v1)%nat /\ (3 <= List.length v2)%nat)
  /\ exists u,
       mann_whitney_u_test heron_sqrt v1 v2
       = Return (u,
                 (u - (Num.of_nat 3 * Num.of_nat 3) / Num.lit 2 1)
                 / heron_sqrt ((Num.of_nat 3 * Num.of_nat 3
                                * (Num.of_nat 3 + Num.of_nat 3 + 1)) / Num.lit 12 1),
                 "success"%string).
Proof.
  intros v1 v2.
  assert (H1 : (3 <= List.length v1)%nat) by (simpl; lia).
  assert (H2 : (3 <= List.length v2)%nat) by (simpl; lia).
  split; [split; [exact heron_sqrt_nonzero | split; assumption]|].
  exact (mann_whitney_status_success heron_sqrt v1 v2 heron_sqrt_nonzero H1 H2).
Defined.

(** ** When the orchestrator returns *)

(** With a square root that is 0 at 0 and not 0 above it, the
    [hypothesis_test] command prints a result line exactly when both samples
    are non-empty; with an empty sample it raises ZeroDivisionError. *)
Theorem hypothesis_test_returns_iff_nonempty (sqrt : Qc -> Qc) (v1 v2 : list Qc) :
  sqrt 0 = 0 -> (forall x, 0 < x -> sqrt x <> 0) ->
  ((exists line, hypothesis_test sqrt v1 v2 = Return line) <-> v1 <> [] /\ v2 <> [])
  /\ (v1 = [] \/ v2 = [] -> hypothesis_test sqrt v1 v2 = Raise ZeroDivisionError).
Proof.
  intros H0 Hpos.
  assert (R : v1 = [] \/ v2 = [] -> hypothesis_test sqrt v1 v2 = Raise ZeroDivisionError).
  { intro He.
    destruct (hypothesis_test_short sqrt v1 v2) as (s1 & s2 & _ & _ & E).
    { destruct He as [-> | ->]; [left | right]; simpl; lia. }
    rewrite E. unfold calculate_rank_biserial.
    replace (Num.of_nat (List.length v1) * Num.of_nat (List.length v2)) with 0.
    - reflexivity.
    - destruct He as [-> | ->]; simpl List.length; change (Num.of_nat 0) with 0; ring. }
  split; [|exact R]. split.
  - intros (line & E).
    split; intro K; rewrite R in E by auto; discriminate E.
  - intros [N1 N2].
    destruct (hypothesis_test_routing sqrt v1 v2 H0 Hpos N1 N2)
      as (s1 & s2 & k1 & k1' & k2 & k2' & _ & _ & [(_ & _ & t & df & e & _ & E)
                                                 |(_ & u & z & st & e & _ & _ & E)]);
      eexists; exact E.
Qed.

Lemma hypothesis_test_returns_iff_nonempty_witness :
  let v1 := [Num.lit 1 1; Num.lit 2 1] in
  let v2 := [Num.lit 3 1] in
  (heron_sqrt 0 = 0 /\ (forall x, 0 < x -> heron_sqrt x <> 0))
  /\ (((exists line, hypothesis_test heron_sqrt v1 v2 = Return line)
       <-> v1 <> [] /\ v2 <> [])
      /\ (v1 = [] \/ v2 = [] -> hypothesis_test heron_sqrt v1 v2 = Raise ZeroDivisionError)).
Proof.
  intros v1 v2.
  split; [split; [exact heron_sqrt_zero | exact heron_sqrt_nonzero]|].
  exact (hypothesis_test_returns_iff_nonempty heron_sqrt v1 v2
           heron_sqrt_zero heron_sqrt_nonzero).
Defined.

(** ** The normality classifier: statuses and sentinels *)

(** [check_normality] never raises.  Its status is insufficient_data exactly
    when the sample has fewer than 20 values; it is one of the four statuses;
    skewness and kurtosis are both 0 under insufficient_data and
    zero_variance; and approximately_normal is returned exactly under
    |skewness| <= 1 and |kurtosis| <= 2, non_normal when that fails. *)
Theorem check_normality_statuses (sqrt : Qc -> Qc) (values : list Qc) :
  exists status skew kurt,
    check_normality sqrt values = Return (status, skew, kurt)
    /\ (status = "insufficient_data"%string <-> (List.length values < 20)%nat)
    /\ In status ["insufficient_data"; "zero_variance";
                  "approximately_normal"; "non_normal"]%string
    /\ (status = "insufficient_data"%string \/ status = "zero_variance"%string ->
        skew = 0 /\ kurt = 0)
    /\ (status = "approximately_normal"%string ->
        Num.abs skew <= Num.lit 1 1 /\ Num.abs kurt <= Num.lit 2 1)
    /\ (status = "non_normal"%string ->
        ~ (Num.abs skew <= Num.lit 1 1 /\ Num.abs kurt <= Num.lit 2 1)).
Proof.
  unfold check_normality.
  destruct (Nat.ltb_spec (List.length values) 20) as [Hlt|Hge].
  { do 3 eexists. split; [reflexivity|].
    split; [split; auto|]. split; [simpl; auto|].
    split; [auto|]. split; intro K; discriminate K. }
  rewrite statistics_mean_total by (destruct values; simpl in *; [lia | congruence]).
  cbn [bind]. unfold statistics_stdev.
  destruct (statistics_variance_total values) as (v & Hv); [lia|].
  rewrite Hv. cbn [bind].
  destruct (Num.eqb (sqrt v) 0) eqn:E.
  { do 3 eexists. split; [reflexivity|].
    split; [split; [intro K; discriminate K | lia]|]. split; [simpl; auto|].
    split; [auto|]. split; intro K; discriminate K. }
  apply eqb_false_iff in E.
  rewrite (map_outcome_div _ _ _ E). cbn [bind].
  rewrite !py_div_nonzero by (apply of_nat_nonzero; lia).
  cbn [bind].
  match goal with
  | |- context [Num.leb ?a ?b && Num.leb ?c ?d] =>
      destruct (Num.leb a b) eqn:A; destruct (Num.leb c d) eqn:B
  end; cbn [andb];
  do 3 eexists; (split; [reflexivity|]);
  (split; [split; [intro K; discriminate K | lia]|]);
  (split; [simpl; auto|]);
  (split; [intros [K|K]; discriminate K|]);
  (split; [intro K; try discriminate K | intro K; try discriminate K]).
  - split; apply leb_true_iff; assumption.
  - intros [_ C]. apply leb_true_iff in C. congruence.
  - intros [C _]. apply leb_true_iff in C. congruence.
  - intros [C _]. apply leb_true_iff in C. congruence.
Qed.

Lemma fold_plus_zeros (l : list Qc) (acc : Qc) :
  (forall y, In y l -> y = 0) -> fold_left Qcplus l acc = acc.
Proof.
  revert acc. induction l as [|x l IH]; intros acc H; simpl.
  - reflexivity.
  - rewrite IH by (intros y Hy; apply H; right; exact Hy).
    rewrite (H x) by (left; reflexivity). ring.
Qed.

Lemma statistics_variance_constant (values : list Qc) (c : Qc) :
  (2 <= List.length values)%nat ->
  (forall y, In y values -> y = c) ->
  statistics_variance values = Return 0.
Proof.
  intros Hn Hc. unfold statistics_variance.
  replace (List.length values <? 2)%nat with false
    by (symmetry; apply Nat.ltb_ge; exact Hn).
  cbv zeta.
  assert (Hmean : Num.sum values / Num.of_nat (List.length values) = c).
  { destruct (mean_between values c c) as [A B].
    - destruct values; simpl in *; [lia | congruence].
    - intros y Hy. rewrite (Hc y Hy). split; apply Qcle_refl.
    - apply Qcle_antisym; assumption. }
  rewrite Hmean. unfold Num.sum. rewrite fold_plus_zeros.
  - f_equal. unfold Qcdiv. ring.
  - intros y Hy. apply in_map_iff in Hy. destruct Hy as (x & <- & Hx).
    rewrite (Hc x Hx). ring.
Qed.

(** A sample of at least 20 values that are all equal is classified
    zero_variance, with skewness and kurtosis 0 (the square root being 0 at
    0): no division by the zero standard deviation happens. *)
Theorem check_normality_constant_sample (sqrt : Qc -> Qc) (values : list Qc) (c : Qc) :
  sqrt 0 = 0 ->
  (20 <= List.length values)%nat ->
  (forall y, In y values -> y = c) ->
  check_normality sqrt values = Return ("zero_variance"%string, 0, 0).
Proof.
  intros H0 Hn Hc. unfold check_normality.
  replace (List.length values <? 20)%nat with false
    by (symmetry; apply Nat.ltb_ge; exact Hn).
  rewrite statistics_mean_total by (destruct values; simpl in *; [lia | congruence]).
  cbn [bind]. unfold statistics_stdev.
  rewrite (statistics_variance_constant values c) by (assumption || lia).
  cbn [bind]. rewrite H0. reflexivity.
Qed.

Lemma check_normality_constant_sample_witness :
  let values := repeat (Num.lit 5 1) 20 in
  (heron_sqrt 0 = 0 /\ (20 <= List.length values)%nat
   /\ (forall y, In y values -> y = Num.lit 5 1))
  /\ check_normality heron_sqrt values = Return ("zero_variance"%string, 0, 0).
Proof.
  intro values.
  assert (Hn : (20 <= List.length values)%nat)
    by (unfold values; rewrite repeat_length; lia).
  assert (Hc : forall y, In y values -> y = Num.lit 5 1)
    by (intros y Hy; exact (repeat_spec _ _ _ Hy)).
  split; [split; [exact heron_sqrt_zero | split; assumption]|].
  exact (check_normality_constant_sample heron_sqrt values (Num.lit 5 1)
           heron_sqrt_zero Hn Hc).
Defined.

(** ** Cohen's d *)

(** When [calculate_cohens_d] returns d, d has the sign of m1 - m2 (their
    product is not negative), d is 0 for equal means, and the call with the
    two samples' arguments exchanged returns -d. *)
Theorem calculate_cohens_d_sign (sqrt : Qc -> Qc) (m1 m2 s1 s2 : Qc) (n1 n2 : nat) (d : Qc) :
  calculate_cohens_d sqrt m1 m2 s1 s2 n1 n2 = Return d ->
  0 <= d * (m1 - m2)
  /\ (m1 = m2 -> d = 0)
  /\ calculate_cohens_d sqrt m2 m1 s2 s1 n2 n1 = Return (- d).
Proof.
  unfold calculate_cohens_d.
  rewrite (Qcplus_comm ((Num.of_nat n2 - 1) * s2) ((Num.of_nat n1 - 1) * s1)).
  rewrite (Qcplus_comm (Num.of_nat n2) (Num.of_nat n1)).
  destruct (py_div ((Num.of_nat n1 - 1) * s1 + (Num.of_nat n2 - 1) * s2)
              (Num.of_nat n1 + Num.of_nat n2 - Num.lit 2 1)) as [pv| |];
    cbn [bind]; try discriminate.
  destruct (math_sqrt sqrt pv) as [sd| |]; cbn [bind]; try discriminate.
  destruct (Num.ltb 0 sd) eqn:G.
  - apply ltb_true_iff in G. pose proof (Qc_pos_nonzero _ G) as Gz.
    rewrite !(py_div_nonzero _ _ Gz). intro E. injection E as <-.
    split; [|split].
    + replace ((m1 - m2) / sd * (m1 - m2)) with (((m1 - m2) * (m1 - m2)) / sd)
        by (unfold Qcdiv; ring).
      apply Qc_div_nonneg; [apply Qc_square_nonneg | exact G].
    + intros ->. unfold Qcdiv. ring.
    + f_equal. unfold Qcdiv. ring.
  - intro E. injection E as <-. split; [|split].
    + rewrite Qcmult_0_l. apply Qcle_refl.
    + reflexivity.
    + apply f_equal. ring.
Qed.

Lemma calculate_cohens_d_sign_witness :
  exists d,
    calculate_cohens_d heron_sqrt (Num.lit 3 1) (Num.lit 5 1) (Num.lit 2 1) (Num.lit 4 1)
      5 7 = Return d
    /\ (0 <= d * (Num.lit 3 1 - Num.lit 5 1)
        /\ (Num.lit 3 1 = Num.lit 5 1 -> d = 0)
        /\ calculate_cohens_d heron_sqrt (Num.lit 5 1) (Num.lit 3 1) (Num.lit 4 1)
             (Num.lit 2 1) 7 5 = Return (- d)).
Proof.
  destruct (calculate_cohens_d heron_sqrt (Num.lit 3 1) (Num.lit 5 1) (Num.lit 2 1)
              (Num.lit 4 1) 5 7) as [d| |] eqn:E;
    try (vm_compute in E; discriminate E).
  exists d. split; [reflexivity|].
  exact (calculate_cohens_d_sign heron_sqrt _ _ _ _ 5 7 d E).
Defined.

(** With one value in each sample the pooled variance divides by
    n1 + n2 - 2 = 0: [calculate_cohens_d] raises ZeroDivisionError, whatever
    the means and variances passed. *)
Theorem calculate_cohens_d_single_values (sqrt : Qc -> Qc) (m1 m2 s1 s2 : Qc) :
  calculate_cohens_d sqrt m1 m2 s1 s2 1 1 = Raise ZeroDivisionError.
Proof.
  unfold calculate_cohens_d, py_div.
  replace (Num.eqb (Num.of_nat 1 + Num.of_nat 1 - Num.lit 2 1) 0) with true
    by (vm_compute; reflexivity).
  reflexivity.
Qed.

(** ** The [calculate_statistics] command *)

(** For a non-empty sample (with sqrt(n) non-zero) the command's line has
    eleven fields: the ten of [calculate_stats] followed by the sample
    variance, which is not negative; the stdev field is the square root of
    that variance when n > 1, and both are 0 when n = 1. *)
Theorem calculate_statistics_eleven_fields (sqrt : Qc -> Qc) (data : list Qc) :
  data <> [] ->
  sqrt (Num.of_nat (List.length data)) <> 0 ->
  exists mean median stdev min_val max_val p90 p95 p99 ci_lower ci_upper variance : Qc,
    calculate_stats sqrt data
    = Return [mean; median; stdev; min_val; max_val; p90; p95; p99; ci_lower; ci_upper]
    /\ calculate_statistics sqrt data
       = Return [mean; median; stdev; min_val; max_val; p90; p95; p99;
                 ci_lower; ci_upper; variance]
    /\ 0 <= variance
    /\ ((1 < List.length data)%nat -> stdev = sqrt variance)
    /\ (List.length data = 1%nat -> stdev = 0 /\ variance = 0).
Proof.
  intros Hne Hroot.
  destruct (calculate_stats_fields sqrt data Hne Hroot)
    as (median & stdev & min_val & max_val & _ & _ & _ & Hz & Hv & Hres).
  unfold calculate_statistics. rewrite Hres. cbn [bind].
  destruct (Nat.ltb_spec 1 (List.length data)) as [H1|H1].
  - destruct (Hv H1) as (v & Ev & Es). rewrite Ev. cbn [bind app].
    do 11 eexists. split; [reflexivity|]. split; [reflexivity|].
    split; [eapply statistics_variance_nonneg; exact Ev|].
    split; [intros _; exact Es | lia].
  - cbn [bind app].
    do 11 eexists. split; [reflexivity|]. split; [reflexivity|].
    split; [apply Qcle_refl|].
    split; [lia | intros _; split; [apply Hz; exact H1 | reflexivity]].
Qed.

Lemma calculate_statistics_eleven_fields_witness :
  let data := [Num.lit 4 1; Num.lit 1 1; Num.lit 3 1; Num.lit 1 1] in
  (data <> [] /\ heron_sqrt (Num.of_nat (List.length data)) <> 0)
  /\ exists mean median stdev min_val max_val p90 p95 p99 ci_lower ci_upper variance : Qc,
       calculate_stats heron_sqrt data
       = Return [mean; median; stdev; min_val; max_val; p90; p95; p99;
                 ci_lower; ci_upper]
       /\ calculate_statistics heron_sqrt data
          = Return [mean; median; stdev; min_val; max_val; p90; p95; p99;
                    ci_lower; ci_upper; variance]
       /\ 0 <= variance
       /\ ((1 < List.length data)%nat -> stdev = heron_sqrt variance)
       /\ (List.length data = 1%nat -> stdev = 0 /\ variance = 0).
Proof.
  intro data.
  assert (Hne : data <> []) by (unfold data; discriminate).
  assert (Hroot : heron_sqrt (Num.of_nat (List.length data)) <> 0)
    by (apply eqb_false_iff; vm_compute; reflexivity).
  split; [split; assumption|].
  exact (calculate_statistics_eleven_fields heron_sqrt data Hne Hroot).
Defined.
